(** * WebPixels MCP server: catalog store, query, aggregation, assembly
      and dependency resolution

    Shallow embedding of [server.ts] (class [WebPixelsServer]) and
    [types.ts].  JavaScript [Map]s are finite maps ([gmap]) keyed by
    strings, arrays are lists, an optional property is an [option], and a
    handler that may [throw] returns an [Outcome].  The text payloads are
    kept as the values handed to [JSON.stringify], before serialisation. *)

From Stdlib Require Import ZArith Ascii String.
From stdpp Require Import gmap strings list fin_maps.

Local Open Scope string_scope.

(** ** types.ts *)

Inductive ComponentType :=
  | component | section | card | screen | layout | page | form | chart
  | partial.

#[global] Instance ComponentType_eq_dec : EqDecision ComponentType.
Proof. solve_decision. Defined.

Inductive ColorScheme := light | dark | mixed.
Inductive LayoutType := full_width | contained | split.

Module ContentHints.
Record t := mk {
    has_images : bool;
    has_icons : bool;
    has_buttons : bool;
    has_form : bool;
    has_carousel : bool;
    has_video : bool;
    color_scheme : ColorScheme;
    layout_type : LayoutType;
  }.
End ContentHints.

Module ComponentData.
Record t := mk {
    id : string;
    slug : string;
    name : string;
    type : ComponentType;
    category : string;
    subcategory : string;
    description : string;
    tags : list string;
    keywords : list string;
    use_cases : list string;
    includes : list string;
    content_hints : ContentHints.t;
    html : string;
    dependencies : list string;
    used_by : list string;
    similar_to : list string;
    is_free : bool;
    is_published : bool;
    is_featured : bool;
    is_new : bool;
    created_at : string;
    updated_at : string;
  }.
End ComponentData.

Module Subcategory.
Record t := mk {
    name : string;
    slug : string;
    description : option string;
  }.
End Subcategory.

Module Category.
Record t := mk {
    slug : string;
    name : string;
    icon : option string;
    description : option string;
    is_published : bool;
    items : list Subcategory.t;
  }.
End Category.

Module ComponentCatalog.
Record t := mk {
    version : string;
    generated_at : string;
    categories : list Category.t;
    components : list ComponentData.t;
  }.
End ComponentCatalog.

(** [limit] is a JavaScript number; the model keeps the integers. *)
Module SearchFilters.
Record t := mk {
    query : option string;
    type : option ComponentType;
    category : option string;
    subcategory : option string;
    is_free : option bool;
    is_featured : option bool;
    limit : option Z;
  }.
End SearchFilters.

Module ComponentSummary.
Record t := mk {
    id : string;
    name : string;
    slug : string;
    type : ComponentType;
    category : string;
    subcategory : string;
    description : string;
    is_free : bool;
    is_featured : bool;
    tags : list string;
  }.
End ComponentSummary.

(** ** The server object and its indexes *)

Record WebPixelsServer := Server {
  catalog : ComponentCatalog.t;
  componentsBySlug : gmap string ComponentData.t;
  componentsById : gmap string ComponentData.t;
  categoriesBySlug : gmap string Category.t;
}.

(** Body of the first loop of [indexData]: two [Map.set] calls. *)
Definition index_component (srv : WebPixelsServer) (c : ComponentData.t)
  : WebPixelsServer :=
  {| catalog := catalog srv;
     componentsBySlug := <[ComponentData.slug c := c]> (componentsBySlug srv);
     componentsById := <[ComponentData.id c := c]> (componentsById srv);
     categoriesBySlug := categoriesBySlug srv |}.

(** Body of the second loop of [indexData]. *)
Definition index_category (srv : WebPixelsServer) (cat : Category.t)
  : WebPixelsServer :=
  {| catalog := catalog srv;
     componentsBySlug := componentsBySlug srv;
     componentsById := componentsById srv;
     categoriesBySlug := <[Category.slug cat := cat]> (categoriesBySlug srv) |}.

Definition indexData (srv : WebPixelsServer) : WebPixelsServer :=
  let srv1 :=
    foldl index_component srv (ComponentCatalog.components (catalog srv)) in
  foldl index_category srv1 (ComponentCatalog.categories (catalog srv1)).

(** The constructor: empty maps, then [indexData].  The catalog is the
    bundled JSON file in the source; here it is the argument. *)
Definition new_server (componentCatalog : ComponentCatalog.t)
  : WebPixelsServer :=
  indexData {| catalog := componentCatalog;
               componentsBySlug := ∅;
               componentsById := ∅;
               categoriesBySlug := ∅ |}.

(** [this.componentsById.get(idOrSlug) || this.componentsBySlug.get(idOrSlug)]:
    a stored component is an object, hence truthy, so [||] falls through
    exactly when the first lookup is [undefined]. *)
Definition getComponent (srv : WebPixelsServer) (idOrSlug : string)
  : option ComponentData.t :=
  match componentsById srv !! idOrSlug with
  | Some c => Some c
  | None => componentsBySlug srv !! idOrSlug
  end.

(** ** JavaScript string and truthiness helpers *)

Definition LF : string := String (Ascii.ascii_of_nat 10) EmptyString.
Definition DQ : string := String (Ascii.ascii_of_nat 34) EmptyString.

(** [String.prototype.toLowerCase], on the ASCII letters: strings are
    byte strings here and every other byte is left as it is, whereas the
    code lower-cases the letters of all scripts. *)
Definition lower_ascii (a : ascii) : ascii :=
  let n := Ascii.N_of_ascii a in
  if ((65 <=? n) && (n <=? 90))%N then Ascii.ascii_of_N (n + 32) else a.

Fixpoint toLowerCase (s : string) : string :=
  match s with
  | EmptyString => EmptyString
  | String a s' => String (lower_ascii a) (toLowerCase s')
  end.

(** [Array.prototype.join]. *)
Definition join (sep : string) (parts : list string) : string :=
  String.concat sep parts.

(** [String.prototype.includes]. *)
Fixpoint includes (s q : string) : bool :=
  String.prefix q s ||
  match s with
  | EmptyString => false
  | String _ s' => includes s' q
  end.

(** [String.prototype.split] for a non-empty separator: [skip] counts the
    characters of a matched separator still to be passed over, [cur] is
    the piece being read. *)
Fixpoint split_go (sep s : string) (skip : nat) (cur : string)
  : list string :=
  match s with
  | EmptyString => [cur]
  | String a s' =>
      match skip with
      | S k => split_go sep s' k cur
      | O =>
          if String.prefix sep s
          then cur :: split_go sep s' (String.length sep - 1) EmptyString
          else split_go sep s' 0 (cur +:+ String a EmptyString)
      end
  end.

Definition split_string (sep s : string) : list string :=
  split_go sep s 0 EmptyString.

(** A string is truthy when it is not empty; a number when it is not 0. *)
Definition truthy_string (s : string) : bool :=
  match s with EmptyString => false | _ => true end.

Definition truthy_num (n : Z) : bool := negb (n =? 0)%Z.

(** [`${x}`] for a value that may be [undefined]. *)
Definition interpolate (x : option string) : string :=
  match x with Some s => s | None => "undefined" end.

(** [Map.prototype.get] at a key that may be [undefined]: every key of
    the three indexes is a string, so [undefined] is never found. *)
Definition get_opt {V} (m : gmap string V) (k : option string) : option V :=
  match k with Some s => m !! s | None => None end.

Definition getComponent_opt (srv : WebPixelsServer) (k : option string)
  : option ComponentData.t :=
  match k with Some s => getComponent srv s | None => None end.

(** ** Query engine *)

(** The haystack of the text search; [c.description || ''] is
    [c.description] for a string. *)
Definition searchText (c : ComponentData.t) : string :=
  toLowerCase
    (join " "
       ([ComponentData.name c;
         ComponentData.slug c;
         (if truthy_string (ComponentData.description c)
          then ComponentData.description c else EmptyString);
         ComponentData.category c;
         ComponentData.subcategory c]
        ++ ComponentData.tags c
        ++ ComponentData.keywords c
        ++ ComponentData.use_cases c)).

(** [Array.prototype.slice(0, n)] for [n > 0]. *)
Definition slice0 {A} (n : Z) (l : list A) : list A := take (Z.to_nat n) l.

(** The tests [if (filters.type)], [if (filters.category)] and
    [if (filters.query)] are truthiness tests: a component type is one of
    nine non-empty strings, so it passes whenever it is present; an empty
    category or query string does not pass.  [is_free] and [is_featured]
    are compared with [undefined]. *)
Definition searchComponents (srv : WebPixelsServer)
    (filters : SearchFilters.t) : list ComponentData.t :=
  let results :=
    List.filter ComponentData.is_published
      (ComponentCatalog.components (catalog srv)) in
  let results :=
    match SearchFilters.type filters with
    | Some ty =>
        List.filter (λ c, bool_decide (ComponentData.type c = ty)) results
    | None => results
    end in
  let results :=
    match SearchFilters.category filters with
    | Some cat =>
        if truthy_string cat
        then List.filter
               (λ c, bool_decide (ComponentData.category c = cat)
                     || bool_decide (ComponentData.subcategory c = cat))
               results
        else results
    | None => results
    end in
  let results :=
    match SearchFilters.is_free filters with
    | Some b =>
        List.filter (λ c, bool_decide (ComponentData.is_free c = b)) results
    | None => results
    end in
  let results :=
    match SearchFilters.is_featured filters with
    | Some b =>
        List.filter (λ c, bool_decide (ComponentData.is_featured c = b))
          results
    | None => results
    end in
  let results :=
    match SearchFilters.query filters with
    | Some q =>
        if truthy_string q
        then let query := toLowerCase q in
             List.filter (λ c, includes (searchText c) query) results
        else results
    | None => results
    end in
  let results :=
    match SearchFilters.limit filters with
    | Some n =>
        if truthy_num n && (0 <? n)%Z then slice0 n results else results
    | None => results
    end in
  results.

Definition formatComponentSummary (c : ComponentData.t)
  : ComponentSummary.t :=
  {| ComponentSummary.id := ComponentData.id c;
     ComponentSummary.name := ComponentData.name c;
     ComponentSummary.slug := ComponentData.slug c;
     ComponentSummary.type := ComponentData.type c;
     ComponentSummary.category := ComponentData.category c;
     ComponentSummary.subcategory := ComponentData.subcategory c;
     ComponentSummary.description := ComponentData.description c;
     ComponentSummary.is_free := ComponentData.is_free c;
     ComponentSummary.is_featured := ComponentData.is_featured c;
     ComponentSummary.tags := ComponentData.tags c |}.

(** ** Requests and responses *)

(** The [arguments] object of a tool call, [Record<string, unknown>]: one
    optional property per key, typed as the handlers cast it.  A handler
    reads only the keys its body names.  A property of another type than
    the cast names is outside this model; a request without [arguments]
    is handled in [callTool]. *)
Module Args.
Record t := mk {
    query : option string;
    type : option ComponentType;
    category : option string;
    is_free : option bool;
    is_featured : option bool;
    limit : option Z;
    id : option string;
    components : option (list string);
    layout : option string;
    includeAssets : option bool;
    direction : option string;
  }.

  (** The empty object [{}]. *)
Definition empty : t :=
    mk None None None None None None None None None None None.
End Args.

(** The object written by [handleGetComponent] and
    [handleComponentResource]. *)
Module ComponentDetail.
Record t := mk {
    id : string;
    name : string;
    slug : string;
    type : ComponentType;
    category : string;
    subcategory : string;
    description : string;
    is_free : bool;
    is_featured : bool;
    tags : list string;
    keywords : list string;
    use_cases : list string;
    includes : list string;
    content_hints : ContentHints.t;
    dependencies : list string;
    used_by : list string;
    html : string;
  }.
End ComponentDetail.

Module SubcategoryRef.
Record t := mk { slug : string; name : string }.
End SubcategoryRef.

Module CategoryStat.
Record t := mk {
    slug : string;
    name : string;
    icon : option string;
    componentCount : nat;
    freeCount : nat;
    subcategories : list SubcategoryRef.t;
  }.
End CategoryStat.

Module ComponentRef.
Record t := mk { id : string; slug : string; name : string }.
End ComponentRef.

Module CategoryInfo.
Record t := mk {
    slug : string;
    name : string;
    description : option string;
  }.
End CategoryInfo.

(** The value of [content[0].text]: the argument of [JSON.stringify], or
    the raw markup for a page. *)
Inductive Payload :=
  | SearchResult (count : nat) (components : list ComponentSummary.t)
  | ComponentResult (detail : ComponentDetail.t)
  | CategoriesResult (categories : list CategoryStat.t)
  | DependenciesResult (component : ComponentRef.t)
      (dependencies dependents : option (list ComponentSummary.t))
  | ErrorResult (error : string) (missing : option (list string))
  | HtmlText (text : string).

Record ToolResponse := {
  content : Payload;
  isError : bool;
}.

Inductive ResourcePayload :=
  | CatalogResource (totalCount : nat) (components : list ComponentSummary.t)
  | CategoryResource (category : option CategoryInfo.t) (count : nat)
      (components : list ComponentSummary.t)
  | ComponentResource (detail : ComponentDetail.t).

Record ResourceResponse := {
  uri : string;
  contents : ResourcePayload;
}.

(** What a handler does: return a value, or [throw new Error(message)]. *)
Inductive Outcome (A : Type) :=
  | Returned (value : A)
  | Thrown (message : string).
Arguments Returned {A} value.
Arguments Thrown {A} message.

Definition componentDetail (c : ComponentData.t) : ComponentDetail.t :=
  {| ComponentDetail.id := ComponentData.id c;
     ComponentDetail.name := ComponentData.name c;
     ComponentDetail.slug := ComponentData.slug c;
     ComponentDetail.type := ComponentData.type c;
     ComponentDetail.category := ComponentData.category c;
     ComponentDetail.subcategory := ComponentData.subcategory c;
     ComponentDetail.description := ComponentData.description c;
     ComponentDetail.is_free := ComponentData.is_free c;
     ComponentDetail.is_featured := ComponentData.is_featured c;
     ComponentDetail.tags := ComponentData.tags c;
     ComponentDetail.keywords := ComponentData.keywords c;
     ComponentDetail.use_cases := ComponentData.use_cases c;
     ComponentDetail.includes := ComponentData.includes c;
     ComponentDetail.content_hints := ComponentData.content_hints c;
     ComponentDetail.dependencies := ComponentData.dependencies c;
     ComponentDetail.used_by := ComponentData.used_by c;
     ComponentDetail.html := ComponentData.html c |}.

(** ** Tool handlers *)

(** The filters object built by [handleSearchComponents]:
    [limit: (args.limit as number) || 20]; no [is_featured] and no
    [subcategory] property is written. *)
Definition searchFilters_of_args (args : Args.t) : SearchFilters.t :=
  {| SearchFilters.query := Args.query args;
     SearchFilters.type := Args.type args;
     SearchFilters.category := Args.category args;
     SearchFilters.subcategory := None;
     SearchFilters.is_free := Args.is_free args;
     SearchFilters.is_featured := None;
     SearchFilters.limit :=
       Some (match Args.limit args with
             | Some n => if truthy_num n then n else 20%Z
             | None => 20%Z
             end) |}.

Definition handleSearchComponents (srv : WebPixelsServer) (args : Args.t)
  : ToolResponse :=
  let results := searchComponents srv (searchFilters_of_args args) in
  let formatted := map formatComponentSummary results in
  {| content := SearchResult (length results) formatted;
     isError := false |}.

Definition notFound (id : option string) : ToolResponse :=
  {| content :=
       ErrorResult ("Component not found: " +:+ interpolate id) None;
     isError := true |}.

Definition handleGetComponent (srv : WebPixelsServer) (args : Args.t)
  : ToolResponse :=
  let id := Args.id args in
  match getComponent_opt srv id with
  | None => notFound id
  | Some c =>
      {| content := ComponentResult (componentDetail c); isError := false |}
  end.

(** *** list_categories *)

Module Stat.
Record t := mk { count : nat; freeCount : nat }.
End Stat.

(** One turn of the counting loop of [handleListCategories].  The entry
    is created on first use, then read back and incremented. *)
Definition count_component (categoryStats : gmap string Stat.t)
    (c : ComponentData.t) : gmap string Stat.t :=
  if negb (ComponentData.is_published c) then categoryStats
  else
    let key := ComponentData.category c in
    let categoryStats :=
      if bool_decide (is_Some (categoryStats !! key)) then categoryStats
      else <[key := Stat.mk 0 0]> categoryStats in
    match categoryStats !! key with
    | Some stat =>
        <[key := Stat.mk (Stat.count stat + 1)
                   (if ComponentData.is_free c
                    then Stat.freeCount stat + 1
                    else Stat.freeCount stat)]> categoryStats
    | None => categoryStats
    end.

(** [stat?.field || 0]. *)
Definition stat_or_zero (field : Stat.t → nat) (stat : option Stat.t)
  : nat :=
  match stat with
  | Some s => match field s with O => 0 | S n => S n end
  | None => 0
  end.

Definition categoryStat (categoryStats : gmap string Stat.t)
    (cat : Category.t) : CategoryStat.t :=
  let stat := categoryStats !! Category.slug cat in
  {| CategoryStat.slug := Category.slug cat;
     CategoryStat.name := Category.name cat;
     CategoryStat.icon := Category.icon cat;
     CategoryStat.componentCount := stat_or_zero Stat.count stat;
     CategoryStat.freeCount := stat_or_zero Stat.freeCount stat;
     CategoryStat.subcategories :=
       map (λ item, SubcategoryRef.mk (Subcategory.slug item)
                      (Subcategory.name item))
         (Category.items cat) |}.

Definition listCategories (srv : WebPixelsServer) : list CategoryStat.t :=
  let categoryStats :=
    foldl count_component ∅ (ComponentCatalog.components (catalog srv)) in
  map (categoryStat categoryStats)
    (List.filter Category.is_published
       (ComponentCatalog.categories (catalog srv))).

Definition handleListCategories (srv : WebPixelsServer) (_args : Args.t)
  : ToolResponse :=
  {| content := CategoriesResult (listCategories srv); isError := false |}.

(** *** assemble_page *)

Definition attr (key value : string) : string :=
  key +:+ "=" +:+ DQ +:+ value +:+ DQ.

(** The document template of [handleAssemblePage] around [body]. *)
Definition documentShell (body : string) : string :=
  join LF
    ["<!DOCTYPE html>";
     "<html " +:+ attr "lang" "en" +:+ ">";
     "<head>";
     "  <meta " +:+ attr "charset" "UTF-8" +:+ ">";
     "  <meta " +:+ attr "name" "viewport" +:+ " "
       +:+ attr "content" "width=device-width, initial-scale=1.0" +:+ ">";
     "  <title>WebPixels Page</title>";
     "  <!-- Bootstrap CSS -->";
     "  <link "
       +:+ attr "href"
             "https://cdn.jsdelivr.net/npm/bootstrap@5.3.3/dist/css/bootstrap.min.css"
       +:+ " " +:+ attr "rel" "stylesheet" +:+ ">";
     "  <!-- Bootstrap Icons -->";
     "  <link "
       +:+ attr "href"
             "https://cdn.jsdelivr.net/npm/bootstrap-icons@1.11.3/font/bootstrap-icons.min.css"
       +:+ " " +:+ attr "rel" "stylesheet" +:+ ">";
     "  <!-- WebPixels CSS -->";
     "  <link "
       +:+ attr "href"
             "https://cdn.jsdelivr.net/npm/@webpixels/css@latest/dist/index.css"
       +:+ " " +:+ attr "rel" "stylesheet" +:+ ">";
     "</head>";
     "<body>";
     body;
     "  <!-- Bootstrap JS -->";
     "  <script "
       +:+ attr "src"
             "https://cdn.jsdelivr.net/npm/bootstrap@5.3.3/dist/js/bootstrap.bundle.min.js"
       +:+ "></script>";
     "</body>";
     "</html>"].

(** The validation loop: [missing.push(id)] for each unresolved id. *)
Definition collect_missing (srv : WebPixelsServer) (missing : list string)
    (id : string) : list string :=
  match getComponent srv id with
  | None => missing ++ [id]
  | Some _ => missing
  end.

(** The assembly loop: [parts.push(component.html)] for each resolved id. *)
Definition collect_part (srv : WebPixelsServer) (parts : list string)
    (id : string) : list string :=
  match getComponent srv id with
  | Some c => parts ++ [ComponentData.html c]
  | None => parts
  end.

Definition handleAssemblePage (srv : WebPixelsServer) (args : Args.t)
  : ToolResponse :=
  let includeAssets :=
    negb (bool_decide (Args.includeAssets args = Some false)) in
  match Args.components args with
  | None =>
      {| content := ErrorResult "No components provided" None;
         isError := true |}
  | Some componentIds =>
      if bool_decide (length componentIds = 0) then
        {| content := ErrorResult "No components provided" None;
           isError := true |}
      else
        let missing := foldl (collect_missing srv) [] componentIds in
        if bool_decide (0 < length missing) then
          {| content := ErrorResult "Components not found" (Some missing);
             isError := true |}
        else
          let parts := foldl (collect_part srv) [] componentIds in
          let body := join (LF +:+ LF) parts in
          let html := if includeAssets then documentShell body else body in
          {| content := HtmlText html; isError := false |}
  end.

(** *** get_component_dependencies *)

(** [.filter((c): c is ComponentData => c !== undefined)]. *)
Definition defined {A} (l : list (option A)) : list A := omap (λ x, x) l.

(** [slugs.map(slug => this.componentsBySlug.get(slug)).filter(...)]. *)
Definition resolveSlugs (srv : WebPixelsServer) (slugs : list string)
  : list ComponentData.t :=
  defined (map (λ slug, componentsBySlug srv !! slug) slugs).

Definition handleGetDependencies (srv : WebPixelsServer) (args : Args.t)
  : ToolResponse :=
  let id := Args.id args in
  let direction :=
    match Args.direction args with
    | Some d => if truthy_string d then d else "both"
    | None => "both"
    end in
  match getComponent_opt srv id with
  | None => notFound id
  | Some c =>
      let ref :=
        ComponentRef.mk (ComponentData.id c) (ComponentData.slug c)
          (ComponentData.name c) in
      let dependencies :=
        if bool_decide (direction = "dependencies")
           || bool_decide (direction = "both")
        then Some (map formatComponentSummary
                     (resolveSlugs srv (ComponentData.dependencies c)))
        else None in
      let dependents :=
        if bool_decide (direction = "dependents")
           || bool_decide (direction = "both")
        then Some (map formatComponentSummary
                     (resolveSlugs srv (ComponentData.used_by c)))
        else None in
      {| content := DependenciesResult ref dependencies dependents;
         isError := false |}
  end.

(** *** The [CallToolRequestSchema] handler *)

Definition toolNames : list string :=
  ["search_components"; "get_component"; "list_categories";
   "assemble_page"; "get_component_dependencies"].

(** The message of the [TypeError] raised by reading a property of
    [undefined], as Node words it. *)
Definition cannotRead (property : string) : string :=
  "Cannot read properties of undefined (reading '" +:+ property +:+ "')".

(** A handler whose first statement reads [args.property]: in a request
    without [arguments], [args] is [undefined] and that read throws. *)
Definition reading (property : string) (handler : Args.t → ToolResponse)
    (arguments : option Args.t) : Outcome ToolResponse :=
  match arguments with
  | Some args => Returned (handler args)
  | None => Thrown (cannotRead property)
  end.

(** [const { name, arguments: args } = request.params] and the switch.
    [arguments] is optional in a request; the cast to
    [Record<string, unknown>] checks nothing, so each handler receives
    what the request had.  [handleListCategories] does not read its
    argument. *)
Definition callTool (srv : WebPixelsServer) (name : string)
    (arguments : option Args.t) : Outcome ToolResponse :=
  if bool_decide (name = "search_components") then
    reading "query" (handleSearchComponents srv) arguments
  else if bool_decide (name = "get_component") then
    reading "id" (handleGetComponent srv) arguments
  else if bool_decide (name = "list_categories") then
    Returned (handleListCategories srv (default Args.empty arguments))
  else if bool_decide (name = "assemble_page") then
    reading "components" (handleAssemblePage srv) arguments
  else if bool_decide (name = "get_component_dependencies") then
    reading "id" (handleGetDependencies srv) arguments
  else Thrown ("Unknown tool: " +:+ name).

(** ** Resource handlers *)

Definition handleCatalogResource (srv : WebPixelsServer)
  : ResourceResponse :=
  let formatted :=
    map formatComponentSummary
      (List.filter ComponentData.is_published
         (ComponentCatalog.components (catalog srv))) in
  {| uri := "component://catalog";
     contents := CatalogResource (length formatted) formatted |}.

Definition handleCategoryResource (srv : WebPixelsServer)
    (slug : option string) : ResourceResponse :=
  let category := get_opt (categoriesBySlug srv) slug in
  let components :=
    List.filter
      (λ c, ComponentData.is_published c
            && (bool_decide (Some (ComponentData.category c) = slug)
                || bool_decide (Some (ComponentData.subcategory c) = slug)))
      (ComponentCatalog.components (catalog srv)) in
  let formatted := map formatComponentSummary components in
  {| uri := "category://" +:+ interpolate slug;
     contents :=
       CategoryResource
         (match category with
          | Some cat =>
              Some (CategoryInfo.mk (Category.slug cat) (Category.name cat)
                      (Category.description cat))
          | None => None
          end)
         (length formatted) formatted |}.

Definition handleComponentResource (srv : WebPixelsServer)
    (idOrSlug : option string) : Outcome ResourceResponse :=
  match getComponent_opt srv idOrSlug with
  | None => Thrown ("Component not found: " +:+ interpolate idOrSlug)
  | Some c =>
      Returned {| uri := "component://" +:+ interpolate idOrSlug;
                  contents := ComponentResource (componentDetail c) |}
  end.

(** The [ReadResourceRequestSchema] handler;
    [const [protocol, path] = uri.split('://')]. *)
Definition readResource (srv : WebPixelsServer) (uri : string)
  : Outcome ResourceResponse :=
  let parts := split_string "://" uri in
  let protocol := parts !! 0 in
  let path := parts !! 1 in
  if bool_decide (protocol = Some "component")
     && bool_decide (path = Some "catalog")
  then Returned (handleCatalogResource srv)
  else if bool_decide (protocol = Some "category")
  then Returned (handleCategoryResource srv path)
  else if bool_decide (protocol = Some "component")
  then handleComponentResource srv path
  else Thrown ("Unknown resource: " +:+ uri).

(** ** Catalog well-formedness and sample catalogs *)

(** Ids are unique, slugs are unique, and an id equal to a slug belongs
    to the same component. *)
Record WellFormed (cat : ComponentCatalog.t) : Prop := {
  wf_ids : NoDup (map ComponentData.id (ComponentCatalog.components cat));
  wf_slugs : NoDup (map ComponentData.slug (ComponentCatalog.components cat));
  wf_keyspaces :
    ∀ c d, c ∈ ComponentCatalog.components cat →
           d ∈ ComponentCatalog.components cat →
           ComponentData.id d = ComponentData.slug c → d = c;
}.

Definition plainHints : ContentHints.t :=
  ContentHints.mk false false false false false false light contained.

Definition sampleComponent (id slug category subcategory html : string)
    (dependencies used_by : list string) (is_free is_published is_featured : bool)
  : ComponentData.t :=
  {| ComponentData.id := id;
     ComponentData.slug := slug;
     ComponentData.name := slug;
     ComponentData.type := section;
     ComponentData.category := category;
     ComponentData.subcategory := subcategory;
     ComponentData.description := EmptyString;
     ComponentData.tags := [];
     ComponentData.keywords := [];
     ComponentData.use_cases := [];
     ComponentData.includes := [];
     ComponentData.content_hints := plainHints;
     ComponentData.html := html;
     ComponentData.dependencies := dependencies;
     ComponentData.used_by := used_by;
     ComponentData.similar_to := [];
     ComponentData.is_free := is_free;
     ComponentData.is_published := is_published;
     ComponentData.is_featured := is_featured;
     ComponentData.is_new := false;
     ComponentData.created_at := EmptyString;
     ComponentData.updated_at := EmptyString |}.

Definition hero : ComponentData.t :=
  sampleComponent "u1" "section-hero-1" "sections" "hero" "<div>Hero</div>"
    [] ["section-pricing-1"; "section-retired-9"] true true false.

Definition pricing : ComponentData.t :=
  sampleComponent "u2" "section-pricing-1" "sections" "pricing"
    "<div>Pricing</div>" ["section-hero-1"; "section-gone-7"] [] false true
    true.

Definition draft : ComponentData.t :=
  sampleComponent "u3" "form-login-1" "forms" "auth" "<form></form>"
    [] [] true false false.

Definition sectionsCategory : Category.t :=
  Category.mk "sections" "Sections" None None true
    [Subcategory.mk "Hero" "hero" None;
     Subcategory.mk "Pricing" "pricing" None].

Definition layoutsCategory : Category.t :=
  Category.mk "layouts" "Layouts" None None true [].

Definition formsCategory : Category.t :=
  Category.mk "forms" "Forms" None None false [].

Definition sampleCatalog : ComponentCatalog.t :=
  ComponentCatalog.mk "1.0" "2025-01-01"
    [sectionsCategory; layoutsCategory; formsCategory]
    [hero; pricing; draft].

Definition sampleServer : WebPixelsServer := new_server sampleCatalog.

(** A published, paid component numbered [k]: the id is [k] letters x
    followed by a p, the slug the same behind a prefix. *)
Fixpoint tally (k : nat) : string :=
  match k with
  | O => "p"
  | S k' => String "x"%char (tally k')
  end.

Definition paid (k : nat) : ComponentData.t :=
  sampleComponent (tally k) ("paid-" +:+ tally k) "components" "cards"
    "<div>Card</div>" [] [] false true false.

(** [n] paid components followed by the free [hero]. *)
Definition crowdedCatalog (n : nat) : ComponentCatalog.t :=
  ComponentCatalog.mk "1.0" "2025-01-01" [] (map paid (seq 0 n) ++ [hero]).


Definition featuredOnly : Args.t :=
  Args.mk None None None None (Some true) None None None None None None.

Definition withId (id : string) : Args.t :=
  Args.mk None None None None None None (Some id) None None None None.

Definition dependenciesOf (id direction : string) : Args.t :=
  Args.mk None None None None None None (Some id) None None None
    (Some direction).

Definition pageOf (components : list string) (includeAssets : option bool)
  : Args.t :=
  Args.mk None None None None None None None (Some components) None
    includeAssets None.

(** The result set of the search tool for [args], before formatting. *)
Definition search (srv : WebPixelsServer) (args : Args.t)
  : list ComponentData.t :=
  searchComponents srv (searchFilters_of_args args).

(** [args] with its [limit] property replaced. *)
Definition setLimit (limit : option Z) (args : Args.t) : Args.t :=
  {| Args.query := Args.query args;
     Args.type := Args.type args;
     Args.category := Args.category args;
     Args.is_free := Args.is_free args;
     Args.is_featured := Args.is_featured args;
     Args.limit := limit;
     Args.id := Args.id args;
     Args.components := Args.components args;
     Args.layout := Args.layout args;
     Args.includeAssets := Args.includeAssets args;
     Args.direction := Args.direction args |}.

(** [filters] without its [limit], and without its [is_featured]. *)
Definition unlimited (filters : SearchFilters.t) : SearchFilters.t :=
  {| SearchFilters.query := SearchFilters.query filters;
     SearchFilters.type := SearchFilters.type filters;
     SearchFilters.category := SearchFilters.category filters;
     SearchFilters.subcategory := SearchFilters.subcategory filters;
     SearchFilters.is_free := SearchFilters.is_free filters;
     SearchFilters.is_featured := SearchFilters.is_featured filters;
     SearchFilters.limit := None |}.

Definition anyFeatured (filters : SearchFilters.t) : SearchFilters.t :=
  {| SearchFilters.query := SearchFilters.query filters;
     SearchFilters.type := SearchFilters.type filters;
     SearchFilters.category := SearchFilters.category filters;
     SearchFilters.subcategory := SearchFilters.subcategory filters;
     SearchFilters.is_free := SearchFilters.is_free filters;
     SearchFilters.is_featured := None;
     SearchFilters.limit := SearchFilters.limit filters |}.

(** The published components of the catalog, in catalog order. *)
Definition published (srv : WebPixelsServer) : list ComponentData.t :=
  List.filter ComponentData.is_published
    (ComponentCatalog.components (catalog srv)).

(** A reference that [getComponent] does not resolve. *)
Definition unresolved (srv : WebPixelsServer) (ref : string) : bool :=
  match getComponent srv ref with None => true | Some _ => false end.

(** The two error replies of [handleAssemblePage]. *)
Definition noComponentsProvided : ToolResponse :=
  {| content := ErrorResult "No components provided" None;
     isError := true |}.

Definition componentsNotFound (missing : list string) : ToolResponse :=
  {| content := ErrorResult "Components not found" (Some missing);
     isError := true |}.

(** The components a list of references resolves to, in order. *)
Definition resolved (srv : WebPixelsServer) (refs : list string)
  : list ComponentData.t :=
  omap (getComponent srv) refs.

(** What a test adds to a count. *)
Definition bump (b : bool) : nat := if b then 1 else 0.

(** The published components filed under a category slug, and the free
    ones among them. *)
Definition inCategory (slug : string) (c : ComponentData.t) : bool :=
  ComponentData.is_published c
  && bool_decide (ComponentData.category c = slug).

Definition freeInCategory (slug : string) (c : ComponentData.t) : bool :=
  inCategory slug c && ComponentData.is_free c.

Definition countWhere {A} (f : A → bool) (l : list A) : nat :=
  length (List.filter f l).

(** The entry of a category whose counts are taken from the component
    list directly. *)
Definition countedCategory (components : list ComponentData.t)
    (cat : Category.t) : CategoryStat.t :=
  {| CategoryStat.slug := Category.slug cat;
     CategoryStat.name := Category.name cat;
     CategoryStat.icon := Category.icon cat;
     CategoryStat.componentCount :=
       countWhere (inCategory (Category.slug cat)) components;
     CategoryStat.freeCount :=
       countWhere (freeInCategory (Category.slug cat)) components;
     CategoryStat.subcategories :=
       map (λ item, SubcategoryRef.mk (Subcategory.slug item)
                      (Subcategory.name item))
         (Category.items cat) |}.

(** A single-pass index build: each element is stored under its key, a
    later element replacing an earlier one with the same key. *)
Definition index_by {A} (key : A → string) (m : gmap string A)
    (l : list A) : gmap string A :=
  foldl (λ m x, <[key x := x]> m) m l.

(** ** The resource list *)

Module ResourceInfo.
Record t := mk {
    uri : string;
    name : string;
    description : string;
    mimeType : string;
  }.
End ResourceInfo.

Definition catalogResourceInfo : ResourceInfo.t :=
  ResourceInfo.mk "component://catalog" "Component Catalog"
    "Full catalog of all available components" "application/json".

(** The entry pushed for a category by the [ListResourcesRequestSchema]
    handler. *)
Definition categoryResourceInfo (cat : Category.t) : ResourceInfo.t :=
  ResourceInfo.mk
    ("category://" +:+ Category.slug cat)
    (Category.name cat +:+ " Category")
    ("All components in the " +:+ Category.name cat +:+ " category")
    "application/json".

(** One turn of the loop of that handler: [resources.push(...)] for a
    published category. *)
Definition push_category_resource (resources : list ResourceInfo.t)
    (cat : Category.t) : list ResourceInfo.t :=
  if Category.is_published cat
  then resources ++ [categoryResourceInfo cat]
  else resources.

Definition listResources (srv : WebPixelsServer) : list ResourceInfo.t :=
  foldl push_category_resource [catalogResourceInfo]
    (ComponentCatalog.categories (catalog srv)).

(** ** Vocabulary of the further properties *)

(** The test a component passes to be a search result, all filters of
    [searchComponents] taken together. *)
Definition matchesFilters (filters : SearchFilters.t) (c : ComponentData.t)
  : bool :=
  ComponentData.is_published c
  && match SearchFilters.type filters with
     | Some ty => bool_decide (ComponentData.type c = ty)
     | None => true
     end
  && match SearchFilters.category filters with
     | Some cat =>
         if truthy_string cat
         then bool_decide (ComponentData.category c = cat)
              || bool_decide (ComponentData.subcategory c = cat)
         else true
     | None => true
     end
  && match SearchFilters.is_free filters with
     | Some b => bool_decide (ComponentData.is_free c = b)
     | None => true
     end
  && match SearchFilters.is_featured filters with
     | Some b => bool_decide (ComponentData.is_featured c = b)
     | None => true
     end
  && match SearchFilters.query filters with
     | Some q =>
         if truthy_string q
         then includes (searchText c) (toLowerCase q)
         else true
     | None => true
     end.

(** [filters] with its [query] replaced. *)
Definition setQuery (query : option string) (filters : SearchFilters.t)
  : SearchFilters.t :=
  {| SearchFilters.query := query;
     SearchFilters.type := SearchFilters.type filters;
     SearchFilters.category := SearchFilters.category filters;
     SearchFilters.subcategory := SearchFilters.subcategory filters;
     SearchFilters.is_free := SearchFilters.is_free filters;
     SearchFilters.is_featured := SearchFilters.is_featured filters;
     SearchFilters.limit := SearchFilters.limit filters |}.

(** The arguments [{category, limit}] of a search call. *)
Definition inCategoryArgs (category : string) (limit : Z) : Args.t :=
  Args.mk None None (Some category) None None (Some limit) None None None
    None None.

(** The [category] property of a category resource. *)
Definition categoryOf (r : ResourceResponse) : option CategoryInfo.t :=
  match contents r with
  | CategoryResource category _ _ => category
  | _ => None
  end.

(** The components listed by a resource. *)
Definition componentsOf (r : ResourceResponse) : list ComponentSummary.t :=
  match contents r with
  | CatalogResource _ components => components
  | CategoryResource _ _ components => components
  | ComponentResource _ => []
  end.

(** The components listed by a search reply. *)
Definition foundBy (r : ToolResponse) : list ComponentSummary.t :=
  match content r with
  | SearchResult _ components => components
  | _ => []
  end.

(** The text of the document template before and after the body. *)
Definition shellHeader : string :=
  join LF
    ["<!DOCTYPE html>";
     "<html " +:+ attr "lang" "en" +:+ ">";
     "<head>";
     "  <meta " +:+ attr "charset" "UTF-8" +:+ ">";
     "  <meta " +:+ attr "name" "viewport" +:+ " "
       +:+ attr "content" "width=device-width, initial-scale=1.0" +:+ ">";
     "  <title>WebPixels Page</title>";
     "  <!-- Bootstrap CSS -->";
     "  <link "
       +:+ attr "href"
             "https://cdn.jsdelivr.net/npm/bootstrap@5.3.3/dist/css/bootstrap.min.css"
       +:+ " " +:+ attr "rel" "stylesheet" +:+ ">";
     "  <!-- Bootstrap Icons -->";
     "  <link "
       +:+ attr "href"
             "https://cdn.jsdelivr.net/npm/bootstrap-icons@1.11.3/font/bootstrap-icons.min.css"
       +:+ " " +:+ attr "rel" "stylesheet" +:+ ">";
     "  <!-- WebPixels CSS -->";
     "  <link "
       +:+ attr "href"
             "https://cdn.jsdelivr.net/npm/@webpixels/css@latest/dist/index.css"
       +:+ " " +:+ attr "rel" "stylesheet" +:+ ">";
     "</head>";
     "<body>";
     EmptyString].

Definition shellFooter : string :=
  join LF
    [EmptyString;
     "  <!-- Bootstrap JS -->";
     "  <script "
       +:+ attr "src"
             "https://cdn.jsdelivr.net/npm/bootstrap@5.3.3/dist/js/bootstrap.bundle.min.js"
       +:+ "></script>";
     "</body>";
     "</html>"].

(** A catalog in which two components share the id [u1] and a third has
    a slug equal to that id. *)
Definition heroCopy : ComponentData.t :=
  sampleComponent "u1" "section-hero-2" "sections" "hero" "<div>Hero 2</div>"
    [] [] false true false.

Definition aliased : ComponentData.t :=
  sampleComponent "u9" "u1" "sections" "hero" "<div>Alias</div>"
    [] [] false true false.

Definition shadowCatalog : ComponentCatalog.t :=
  ComponentCatalog.mk "1.0" "2025-01-01" [formsCategory]
    [hero; heroCopy; aliased].

(** * Properties *)

(** ** Catalog store *)

Section index_by.
Context {A : Type} (key : A → string).

Lemma index_by_notin (l : list A) (m : gmap string A) (k : string) :
  k ∉ map key l → index_by key m l !! k = m !! k.
Proof.
  revert m. induction l as [|x l IH]; intros m Hk; [done|].
  cbn in Hk. apply not_elem_of_cons in Hk as [Hx Hl].
  unfold index_by in *. cbn. rewrite IH by done.
  by rewrite lookup_insert_ne.
Qed.

Lemma index_by_in (l : list A) (m : gmap string A) (x : A) :
  NoDup (map key l) → x ∈ l → index_by key m l !! key x = Some x.
Proof.
  revert m. induction l as [|y l IH]; intros m Hnd Hx.
  - by apply elem_of_nil in Hx.
  - cbn in Hnd. apply NoDup_cons in Hnd as [Hy Hnd].
    apply elem_of_cons in Hx as [->|Hx].
    + change (index_by key (<[key y := y]> m) l !! key y = Some y).
      rewrite index_by_notin by done. apply lookup_insert_eq.
    + change (index_by key (<[key y := y]> m) l !! key x = Some x).
      by apply IH.
Qed.

Lemma index_by_Some (l : list A) (m : gmap string A) (k : string) (x : A) :
  index_by key m l !! k = Some x →
  (x ∈ l ∧ key x = k) ∨ m !! k = Some x.
Proof.
  revert m. induction l as [|y l IH]; intros m Hx; [by right|].
  change (index_by key (<[key y := y]> m) l !! k = Some x) in Hx.
  apply IH in Hx as [[Hin Hk]|Hx].
  - left. split; [by apply elem_of_cons; right | done].
  - destruct (decide (key y = k)) as [Heq|Hne].
    + rewrite <- Heq, lookup_insert_eq in Hx. injection Hx as ->.
      left. split; [by apply elem_of_cons; left | done].
    + rewrite lookup_insert_ne in Hx by done. by right.
Qed.
End index_by.

Lemma index_by_app {A} (key : A → string) (m : gmap string A)
    (l1 l2 : list A) :
  index_by key m (l1 ++ l2) = index_by key (index_by key m l1) l2.
Proof. unfold index_by. apply foldl_app. Qed.

Lemma index_by_last {A} (key : A → string) (m : gmap string A)
    (l1 l2 : list A) (x : A) :
  key x ∉ map key l2 →
  index_by key m (l1 ++ x :: l2) !! key x = Some x.
Proof.
  intros Hlast. rewrite index_by_app.
  change (index_by key (index_by key m l1) (x :: l2))
    with (index_by key (<[key x := x]> (index_by key m l1)) l2).
  rewrite index_by_notin by done. apply lookup_insert_eq.
Qed.

Lemma index_by_is_Some {A} (key : A → string) (l : list A)
    (m : gmap string A) (k : string) :
  k ∈ map key l → is_Some (index_by key m l !! k).
Proof.
  revert m. induction l as [|y l IH]; intros m Hk.
  - by apply elem_of_nil in Hk.
  - change (index_by key m (y :: l))
      with (index_by key (<[key y := y]> m) l).
    destruct (decide (k ∈ map key l)) as [Hin|Hout]; [by apply IH|].
    rewrite index_by_notin by done.
    cbn in Hk. apply elem_of_cons in Hk as [->|Hk]; [|done].
    rewrite lookup_insert_eq. eauto.
Qed.

Lemma index_by_None {A} (key : A → string) (l : list A) (k : string) :
  index_by key ∅ l !! k = None ↔ k ∉ map key l.
Proof.
  split.
  - intros Hnone Hin.
    destruct (index_by_is_Some key l ∅ k Hin) as [x Hx]. congruence.
  - intros Hout. by rewrite index_by_notin.
Qed.

Lemma index_component_catalog (l : list ComponentData.t) srv :
  catalog (foldl index_component srv l) = catalog srv.
Proof. revert srv. induction l as [|c l IH]; intros srv; [done|]. cbn. by rewrite IH. Qed.

Lemma index_component_byId (l : list ComponentData.t) srv :
  componentsById (foldl index_component srv l)
  = index_by ComponentData.id (componentsById srv) l.
Proof. revert srv. induction l as [|c l IH]; intros srv; [done|]. cbn. by rewrite IH. Qed.

Lemma index_component_bySlug (l : list ComponentData.t) srv :
  componentsBySlug (foldl index_component srv l)
  = index_by ComponentData.slug (componentsBySlug srv) l.
Proof. revert srv. induction l as [|c l IH]; intros srv; [done|]. cbn. by rewrite IH. Qed.

Lemma index_category_components (l : list Category.t) srv :
  catalog (foldl index_category srv l) = catalog srv
  ∧ componentsById (foldl index_category srv l) = componentsById srv
  ∧ componentsBySlug (foldl index_category srv l) = componentsBySlug srv.
Proof.
  revert srv. induction l as [|c l IH]; intros srv; [done|].
  cbn. destruct (IH (index_category srv c)) as (-> & -> & ->). done.
Qed.


Lemma new_server_byId cat :
  componentsById (new_server cat)
  = index_by ComponentData.id ∅ (ComponentCatalog.components cat).
Proof.
  unfold new_server, indexData.
  match goal with
  | |- componentsById (foldl index_category ?s ?l) = _ =>
      destruct (index_category_components l s) as (_ & -> & _)
  end.
  by rewrite index_component_byId.
Qed.

Lemma new_server_bySlug cat :
  componentsBySlug (new_server cat)
  = index_by ComponentData.slug ∅ (ComponentCatalog.components cat).
Proof.
  unfold new_server, indexData.
  match goal with
  | |- componentsBySlug (foldl index_category ?s ?l) = _ =>
      destruct (index_category_components l s) as (_ & _ & ->)
  end.
  by rewrite index_component_bySlug.
Qed.

(** Whatever [getComponent] returns is a component of the catalog, and
    the reference is its id or its slug. *)
Lemma getComponent_Some cat x c :
  getComponent (new_server cat) x = Some c →
  c ∈ ComponentCatalog.components cat
  ∧ (ComponentData.id c = x ∨ ComponentData.slug c = x).
Proof.
  unfold getComponent. rewrite new_server_byId, new_server_bySlug.
  destruct (index_by ComponentData.id _ _ !! x) as [d|] eqn:E.
  - intros [= <-]. apply index_by_Some in E as [[? ?]|E]; [auto|done].
  - intros H. apply index_by_Some in H as [[? ?]|H]; [auto|done].
Qed.

(** C1: in a well-formed catalog (unique ids, unique slugs, no id of one
    component equal to the slug of another) every component is returned
    by a lookup of its id and by a lookup of its slug.  Whatever the two
    indexes hold, a lookup answers from the id index when the reference
    is there and from the slug index only otherwise; so on any catalog,
    well formed or not, a reference that is the id of a component is
    answered with a component of that id, even if it is also a slug. *)
Theorem getComponent_roundtrip :
  (∀ (cat : ComponentCatalog.t) (c : ComponentData.t),
     WellFormed cat →
     c ∈ ComponentCatalog.components cat →
     getComponent (new_server cat) (ComponentData.id c) = Some c
     ∧ getComponent (new_server cat) (ComponentData.slug c) = Some c)
  ∧ (∀ (srv : WebPixelsServer) (x : string) (d : ComponentData.t),
       componentsById srv !! x = Some d → getComponent srv x = Some d)
  ∧ (∀ (srv : WebPixelsServer) (x : string),
       componentsById srv !! x = None →
       getComponent srv x = componentsBySlug srv !! x)
  ∧ (∀ (cat : ComponentCatalog.t) (x : string),
       x ∈ map ComponentData.id (ComponentCatalog.components cat) →
       ∃ d, getComponent (new_server cat) x = Some d
            ∧ d ∈ ComponentCatalog.components cat
            ∧ ComponentData.id d = x).
Proof.
  split_and!.
  - intros cat c [Hids Hslugs Hkeys] Hc.
    unfold getComponent. rewrite new_server_byId, new_server_bySlug. split.
    + by rewrite index_by_in.
    + destruct (index_by ComponentData.id _ _ !! ComponentData.slug c)
        as [d|] eqn:E.
      * apply index_by_Some in E as [[Hd Hk]|E]; [|done].
        f_equal. by apply Hkeys.
      * by apply index_by_in.
  - intros srv x d Hd. unfold getComponent. by rewrite Hd.
  - intros srv x Hnone. unfold getComponent. by rewrite Hnone.
  - intros cat x Hid.
    destruct (index_by_is_Some ComponentData.id _ ∅ x Hid) as [d Hd].
    exists d. unfold getComponent. rewrite new_server_byId, Hd.
    apply index_by_Some in Hd as [[Hin Hkey]|Hd]; [done|].
    by rewrite lookup_empty in Hd.
Qed.

(** ** Query engine *)

Lemma filter_sublist {A} (f : A → bool) (l : list A) :
  sublist (List.filter f l) l.
Proof.
  induction l as [|x l IH]; cbn; [constructor|].
  destruct (f x); by constructor.
Qed.

Lemma sublist_Forall {A} (P : A → Prop) (l k : list A) :
  sublist l k → Forall P k → Forall P l.
Proof.
  rewrite !Forall_forall. intros Hsub Hk x Hx.
  apply Hk. by eapply elem_of_sublist.
Qed.

Lemma filter_elem_of {A} (f : A → bool) (l : list A) (x : A) :
  x ∈ List.filter f l ↔ x ∈ l ∧ f x = true.
Proof. rewrite !list_elem_of_In. apply filter_In. Qed.

Lemma filter_comm {A} (f g : A → bool) (l : list A) :
  List.filter f (List.filter g l) = List.filter g (List.filter f l).
Proof.
  induction l as [|x l IH]; [done|]. cbn.
  destruct (f x) eqn:Ef, (g x) eqn:Eg; cbn; rewrite ?Ef, ?Eg, ?IH; done.
Qed.


(** The last step of [searchComponents], on its own. *)
Lemma searchComponents_limit srv filters :
  searchComponents srv filters
  = match SearchFilters.limit filters with
    | Some n =>
        if truthy_num n && (0 <? n)%Z
        then slice0 n (searchComponents srv (unlimited filters))
        else searchComponents srv (unlimited filters)
    | None => searchComponents srv (unlimited filters)
    end.
Proof. unfold searchComponents. cbn. by destruct (SearchFilters.limit filters). Qed.

Lemma searchComponents_sublist srv filters :
  sublist (searchComponents srv filters) (published srv).
Proof.
  unfold searchComponents, published. cbv zeta.
  repeat match goal with
  | |- sublist ?l ?l => reflexivity
  | |- sublist (match ?o with Some _ => _ | None => _ end) _ => destruct o
  | |- sublist (if ?b then _ else _) _ => destruct b
  | |- sublist (List.filter ?f ?l) _ =>
      transitivity l; [apply filter_sublist|]
  | |- sublist (slice0 ?n ?l) _ =>
      transitivity l; [apply sublist_take|]
  end.
Qed.

Lemma published_Forall srv :
  Forall (λ c, ComponentData.is_published c = true) (published srv).
Proof. apply Forall_forall. intros c Hc. by apply filter_elem_of in Hc as [_ ?]. Qed.

Lemma searchComponents_published srv filters :
  Forall (λ c, ComponentData.is_published c = true)
    (searchComponents srv filters).
Proof.
  eapply sublist_Forall; [apply searchComponents_sublist|].
  apply published_Forall.
Qed.

Lemma search_empty srv : search srv Args.empty = take 20 (published srv).
Proof. reflexivity. Qed.

(** C2: the search tool called with the empty argument object answers
    with the first 20 published components of the catalog at most, in
    catalog order; and whatever the filters, every component of a search
    result is published. *)
Theorem search_default (srv : WebPixelsServer) :
  let results := search srv Args.empty in
  handleSearchComponents srv Args.empty
  = {| content :=
         SearchResult (length results) (map formatComponentSummary results);
       isError := false |}
  ∧ results = take 20 (published srv)
  ∧ (length results ≤ 20)%nat
  ∧ Forall (λ c, ComponentData.is_published c = true) results
  ∧ sublist results (ComponentCatalog.components (catalog srv))
  ∧ (∀ filters,
       Forall (λ c, ComponentData.is_published c = true)
         (searchComponents srv filters))
  ∧ (∀ args,
       Forall (λ c, ComponentData.is_published c = true) (search srv args)).
Proof.
  intros results. subst results. rewrite search_empty.
  repeat split.
  - rewrite length_take. lia.
  - eapply sublist_Forall; [apply sublist_take|apply published_Forall].
  - transitivity (published srv); [apply sublist_take|apply filter_sublist].
  - apply searchComponents_published.
  - intros args. apply searchComponents_published.
Qed.





(** C5, as stated of every search call, fails at the tool: an
    [is_featured] argument is not copied into the filters, and the
    component [hero], which is not featured, is returned. *)
Lemma featured_argument_ignored :
  ¬ (∀ srv args b, Args.is_featured args = Some b →
       Forall (λ c, ComponentData.is_featured c = b) (search srv args)).
Proof.
  intros H. specialize (H sampleServer featuredOnly true eq_refl).
  vm_compute in H. apply Forall_cons in H as [H _]. discriminate.
Qed.

(** C5, amended: [searchComponents] called with [is_featured] present
    returns only components whose [is_featured] equals the given boolean,
    and before truncation its result is the result without that filter
    narrowed to those components; the filters built by the search tool
    never carry [is_featured]. *)
Theorem featured_filter (srv : WebPixelsServer) (filters : SearchFilters.t)
    (b : bool) :
  SearchFilters.is_featured filters = Some b →
  Forall (λ c, ComponentData.is_featured c = b)
    (searchComponents srv filters)
  ∧ searchComponents srv (unlimited filters)
    = List.filter (λ c, bool_decide (ComponentData.is_featured c = b))
        (searchComponents srv (unlimited (anyFeatured filters)))
  ∧ (∀ args, SearchFilters.is_featured (searchFilters_of_args args) = None).
Proof.
  intros Hb.
  assert (Heq : searchComponents srv (unlimited filters)
    = List.filter (λ c, bool_decide (ComponentData.is_featured c = b))
        (searchComponents srv (unlimited (anyFeatured filters)))).
  { unfold searchComponents. cbn. rewrite Hb.
    destruct (SearchFilters.query filters) as [q|]; [|done].
    destruct (truthy_string q); [|done]. apply filter_comm. }
  repeat split; [|done].
  eapply sublist_Forall with (k := searchComponents srv (unlimited filters)).
  - rewrite (searchComponents_limit srv filters).
    destruct (SearchFilters.limit filters) as [n|]; [|done].
    destruct (_ && _); [apply sublist_take|done].
  - rewrite Heq. apply Forall_forall. intros c Hc.
    apply filter_elem_of in Hc as [_ Hc]. by apply bool_decide_eq_true in Hc.
Qed.

Lemma featured_filter_witness :
  Forall (λ c, ComponentData.is_featured c = true)
    (searchComponents sampleServer
       (SearchFilters.mk None None None None None (Some true) None)).
Proof.
  apply (featured_filter sampleServer
           (SearchFilters.mk None None None None None (Some true) None) true).
  reflexivity.
Defined.


Lemma limit_of_args (l : option Z) (args : Args.t) :
  SearchFilters.limit (searchFilters_of_args (setLimit l args))
  = Some (match l with
          | Some n => if truthy_num n then n else 20%Z
          | None => 20%Z
          end).
Proof. reflexivity. Qed.

Lemma unlimited_setLimit (l : option Z) (args : Args.t) :
  unlimited (searchFilters_of_args (setLimit l args))
  = unlimited (searchFilters_of_args args).
Proof. reflexivity. Qed.



(** ** Assembly engine *)

Lemma collect_missing_foldl srv (refs acc : list string) :
  foldl (collect_missing srv) acc refs
  = (acc ++ List.filter (unresolved srv) refs)%list.
Proof.
  revert acc. induction refs as [|r refs IH]; intros acc; cbn.
  - by rewrite app_nil_r.
  - rewrite IH. unfold collect_missing, unresolved.
    destruct (getComponent srv r); [done|]. by rewrite <- app_assoc.
Qed.

Lemma collect_part_foldl srv (refs acc : list string) :
  foldl (collect_part srv) acc refs
  = (acc ++ map ComponentData.html (resolved srv refs))%list.
Proof.
  revert acc. induction refs as [|r refs IH]; intros acc; cbn.
  - by rewrite app_nil_r.
  - rewrite IH. unfold collect_part.
    destruct (getComponent srv r); [|done]. by rewrite <- app_assoc.
Qed.

Lemma unresolved_none srv (refs : list string) :
  List.filter (unresolved srv) refs = [] ↔
  Forall (λ r, is_Some (getComponent srv r)) refs.
Proof.
  induction refs as [|r refs IH]; cbn; [by split|].
  unfold unresolved at 1. destruct (getComponent srv r) as [c|] eqn:E.
  - rewrite IH. split; [intros; constructor; eauto | by inversion 1].
  - split; [done|]. inversion 1 as [|?? [? ?]]; simplify_eq.
Qed.

(** The handler on a present list of references, case by case. *)
Lemma handleAssemblePage_cases srv args (refs : list string) :
  Args.components args = Some refs →
  handleAssemblePage srv args
  = match refs with
    | [] => noComponentsProvided
    | _ :: _ =>
        match List.filter (unresolved srv) refs with
        | [] =>
            let body :=
              join (LF +:+ LF) (map ComponentData.html (resolved srv refs)) in
            {| content :=
                 HtmlText
                   (if bool_decide (Args.includeAssets args = Some false)
                    then body else documentShell body);
               isError := false |}
        | missing => componentsNotFound missing
        end
    end.
Proof.
  intros Hrefs. unfold handleAssemblePage. rewrite Hrefs.
  destruct refs as [|r refs]; [done|].
  rewrite bool_decide_eq_false_2 by done.
  rewrite collect_missing_foldl, collect_part_foldl. cbn [app].
  destruct (List.filter (unresolved srv) (r :: refs)) as [|m ms].
  - rewrite bool_decide_eq_false_2 by (cbn; lia).
    by destruct (bool_decide (Args.includeAssets args = Some false)).
  - by rewrite bool_decide_eq_true_2 by (cbn; lia).
Qed.

Lemma handleAssemblePage_absent srv args :
  Args.components args = None →
  handleAssemblePage srv args = noComponentsProvided.
Proof. intros H. unfold handleAssemblePage. by rewrite H. Qed.

(** C3: an empty list of references is answered with the validation
    error, which is not the not-found error; a list with an unresolved
    reference is answered with the not-found error whose [missing] list
    is the references that [getComponent] does not resolve, in input
    order; markup is returned only when the list is not empty and every
    reference resolves. *)
Theorem assemblePage_validation (srv : WebPixelsServer) (args : Args.t)
    (refs : list string) :
  Args.components args = Some refs →
  (refs = [] → handleAssemblePage srv args = noComponentsProvided)
  ∧ (List.filter (unresolved srv) refs ≠ [] →
     handleAssemblePage srv args
     = componentsNotFound (List.filter (unresolved srv) refs))
  ∧ (∀ r, r ∈ List.filter (unresolved srv) refs
          ↔ r ∈ refs ∧ getComponent srv r = None)
  ∧ (∀ missing, noComponentsProvided ≠ componentsNotFound missing)
  ∧ (∀ text, content (handleAssemblePage srv args) = HtmlText text →
       refs ≠ [] ∧ Forall (λ r, is_Some (getComponent srv r)) refs).
Proof.
  intros Hrefs. rewrite (handleAssemblePage_cases srv args refs Hrefs).
  split_and!.
  - by intros ->.
  - intros Hmiss. destruct refs as [|r refs]; [done|].
    by destruct (List.filter _ _).
  - intros r. rewrite filter_elem_of. unfold unresolved.
    destruct (getComponent srv r); intuition congruence.
  - done.
  - intros text Htext. split.
    + by destruct refs.
    + apply unresolved_none. destruct refs as [|r refs]; [done|].
      by destruct (List.filter _ _).
Qed.

Lemma assemblePage_validation_witness :
  handleAssemblePage sampleServer
    (pageOf ["section-hero-1"; "nonexistent-slug"] (Some false))
  = componentsNotFound ["nonexistent-slug"].
Proof.
  refine (proj1 (proj2 (assemblePage_validation sampleServer
    (pageOf ["section-hero-1"; "nonexistent-slug"] (Some false))
    ["section-hero-1"; "nonexistent-slug"] eq_refl)) _).
  vm_compute. discriminate.
Defined.

Lemma resolved_all srv (refs : list string) :
  Forall (λ r, is_Some (getComponent srv r)) refs →
  length (resolved srv refs) = length refs.
Proof.
  induction 1 as [|r refs [c Hc] _ IH]; [done|].
  unfold resolved in *. cbn. rewrite Hc. cbn. by rewrite IH.
Qed.

(** Any non-empty list of resolvable references, without the document
    shell: the markup of the components joined by a blank line, one piece
    per reference, in input order. *)
Lemma assemblePage_resolved srv args (refs : list string) :
  Args.components args = Some refs →
  Args.includeAssets args = Some false →
  refs ≠ [] →
  Forall (λ r, is_Some (getComponent srv r)) refs →
  handleAssemblePage srv args
  = {| content :=
         HtmlText
           (join (LF +:+ LF) (map ComponentData.html (resolved srv refs)));
       isError := false |}.
Proof.
  intros Hrefs Hassets Hne Hall.
  rewrite (handleAssemblePage_cases srv args refs Hrefs).
  destruct refs as [|r refs]; [done|].
  apply unresolved_none in Hall. rewrite Hall.
  by rewrite bool_decide_eq_true_2.
Qed.

(** C7: for two references that resolve, assembly without assets returns
    the markup of the first, a blank line, and the markup of the second;
    nothing depends on the two being different components. *)
Theorem assemblePage_pair (srv : WebPixelsServer) (args : Args.t)
    (a b : string) (ca cb : ComponentData.t) :
  Args.components args = Some [a; b] →
  Args.includeAssets args = Some false →
  getComponent srv a = Some ca →
  getComponent srv b = Some cb →
  handleAssemblePage srv args
  = {| content :=
         HtmlText
           (ComponentData.html ca +:+ (LF +:+ LF) +:+ ComponentData.html cb);
       isError := false |}.
Proof.
  intros Hrefs Hassets Ha Hb.
  rewrite (assemblePage_resolved srv args [a; b]); try done.
  - unfold resolved. cbn. by rewrite Ha, Hb.
  - repeat constructor; eauto.
Qed.

Lemma assemblePage_pair_witness :
  handleAssemblePage sampleServer
    (pageOf ["section-hero-1"; "u2"] (Some false))
  = {| content :=
         HtmlText ("<div>Hero</div>" +:+ (LF +:+ LF) +:+ "<div>Pricing</div>");
       isError := false |}.
Proof.
  apply (assemblePage_pair sampleServer
           (pageOf ["section-hero-1"; "u2"] (Some false))
           "section-hero-1" "u2" hero pricing);
    vm_compute; reflexivity.
Defined.

(** The same reference twice is assembled twice. *)
Example assemblePage_repeated :
  handleAssemblePage sampleServer (pageOf ["u1"; "section-hero-1"] (Some false))
  = {| content :=
         HtmlText ("<div>Hero</div>" +:+ (LF +:+ LF) +:+ "<div>Hero</div>");
       isError := false |}.
Proof. vm_compute. reflexivity. Qed.

(** ** Error propagation *)

Lemma callTool_returns srv name args :
  name ∈ toolNames → ∃ r, callTool srv name (Some args) = Returned r.
Proof.
  unfold toolNames, callTool. rewrite !elem_of_cons, elem_of_nil.
  intros [->|[->|[->|[->|[->|[]]]]]]; cbn; eauto.
Qed.

Lemma callTool_unknown srv name arguments :
  name ∉ toolNames →
  callTool srv name arguments = Thrown ("Unknown tool: " +:+ name).
Proof.
  unfold toolNames, callTool. rewrite !not_elem_of_cons.
  intros (? & ? & ? & ? & ? & _).
  by rewrite !bool_decide_eq_false_2.
Qed.

(** A request without [arguments] makes every tool but [list_categories]
    throw a [TypeError]. *)
Lemma callTool_without_arguments srv name :
  name ∈ toolNames →
  (name = "list_categories"
   ∧ callTool srv name None = Returned (handleListCategories srv Args.empty))
  ∨ (name ≠ "list_categories"
     ∧ ∃ property, callTool srv name None = Thrown (cannotRead property)).
Proof.
  unfold toolNames, callTool. rewrite !elem_of_cons, elem_of_nil.
  intros [->|[->|[->|[->|[->|[]]]]]];
    [right | right | left | right | right];
    (split; [done|]); by try eexists.
Qed.

(** A URI whose scheme is neither [component] nor [category] is refused
    by a throw as well. *)
Lemma readResource_unknown srv (uri : string) :
  split_string "://" uri !! 0 ≠ Some "component" →
  split_string "://" uri !! 0 ≠ Some "category" →
  readResource srv uri = Thrown ("Unknown resource: " +:+ uri).
Proof.
  intros Hcomponent Hcategory. unfold readResource.
  rewrite (bool_decide_eq_false_2 (_ = Some "component")) by done.
  by rewrite (bool_decide_eq_false_2 (_ = Some "category")).
Qed.

(** C6, as stated, fails on the resource path: reading the component
    resource of a reference that does not resolve throws. *)
Lemma component_resource_throws :
  getComponent sampleServer "nope" = None
  ∧ handleComponentResource sampleServer (Some "nope")
    = Thrown "Component not found: nope"
  ∧ readResource sampleServer "component://nope"
    = Thrown "Component not found: nope".
Proof. vm_compute. done. Qed.

(** C6, amended: a tool call that carries an arguments object, with
    properties of the types the handlers expect, throws exactly when its
    name is not one of the five tool names, and an unknown name throws
    whatever the arguments.  An absent id, or an id-or-slug that does not
    resolve, is answered by [get_component] and
    [get_component_dependencies] with the not-found payload, flagged
    [isError]; [assemble_page] answers either with markup, and then the
    list of references is not empty and all of them resolve, or with a
    payload flagged [isError].  The component resource handler, on the
    other hand, throws for a reference that does not resolve. *)
Theorem tool_errors_are_payloads (srv : WebPixelsServer) (name : string)
    (args : Args.t) :
  ((∃ message, callTool srv name (Some args) = Thrown message)
   ↔ name ∉ toolNames)
  ∧ (∀ arguments,
       name ∉ toolNames →
       callTool srv name arguments = Thrown ("Unknown tool: " +:+ name))
  ∧ (getComponent_opt srv (Args.id args) = None →
     callTool srv "get_component" (Some args)
     = Returned (notFound (Args.id args))
     ∧ callTool srv "get_component_dependencies" (Some args)
       = Returned (notFound (Args.id args))
     ∧ isError (notFound (Args.id args)) = true)
  ∧ (∃ r, callTool srv "assemble_page" (Some args) = Returned r
          ∧ (isError r = true
             ∨ ∃ text refs,
                 content r = HtmlText text
                 ∧ Args.components args = Some refs
                 ∧ refs ≠ []
                 ∧ Forall (λ ref, is_Some (getComponent srv ref)) refs))
  ∧ (∀ ref,
       getComponent_opt srv ref = None →
       handleComponentResource srv ref
       = Thrown ("Component not found: " +:+ interpolate ref)).
Proof.
  split_and!.
  - split.
    + intros [message Hthrown] Hin.
      destruct (callTool_returns srv name args Hin) as [r Hr]. congruence.
    + intros Hout. rewrite callTool_unknown by done. eauto.
  - intros arguments Hout. by apply callTool_unknown.
  - intros Hnone. unfold callTool, handleGetComponent, handleGetDependencies.
    cbn. by rewrite Hnone.
  - exists (handleAssemblePage srv args). split; [done|].
    destruct (Args.components args) as [refs|] eqn:Hrefs.
    + rewrite (handleAssemblePage_cases srv args refs Hrefs).
      destruct refs as [|r refs]; [by left|].
      destruct (List.filter (unresolved srv) (r :: refs)) eqn:Hmissing;
        [|by left].
      right. eexists _, (r :: refs). split_and!; [done|done|done|].
      by apply unresolved_none.
    + rewrite handleAssemblePage_absent by done. by left.
  - intros ref Hnone. unfold handleComponentResource. by rewrite Hnone.
Qed.

Lemma tool_errors_are_payloads_witness :
  callTool sampleServer "get_component" (Some (withId "nope"))
  = Returned (notFound (Some "nope")).
Proof.
  refine (proj1 (proj1 (proj2 (proj2 (tool_errors_are_payloads sampleServer
    "get_component" (withId "nope")))) _)).
  vm_compute. reflexivity.
Defined.

(** ** Aggregation engine *)

Lemma stat_or_zero_Some (field : Stat.t → nat) (s : Stat.t) :
  stat_or_zero field (Some s) = field s.
Proof. cbn. by destruct (field s). Qed.

(** One turn of the counting loop adds one to the total of the
    component's category when the component is published, and one to the
    free total when it is free as well. *)
Lemma count_component_lookup (m : gmap string Stat.t) c (k : string) :
  stat_or_zero Stat.count (count_component m c !! k)
  = stat_or_zero Stat.count (m !! k) + bump (inCategory k c)
  ∧ stat_or_zero Stat.freeCount (count_component m c !! k)
    = stat_or_zero Stat.freeCount (m !! k) + bump (freeInCategory k c).
Proof.
  unfold count_component, freeInCategory, inCategory.
  destruct (ComponentData.is_published c); cbn [negb andb]; [|cbn; lia].
  destruct (m !! ComponentData.category c) as [stat|] eqn:Hkey.
  - rewrite bool_decide_eq_true_2 by eauto. rewrite Hkey.
    destruct (decide (ComponentData.category c = k)) as [<-|Hne].
    + rewrite lookup_insert_eq, Hkey, !stat_or_zero_Some.
      rewrite bool_decide_eq_true_2 by done.
      destruct (ComponentData.is_free c); cbn; lia.
    + rewrite lookup_insert_ne by done.
      rewrite bool_decide_eq_false_2 by done. cbn. lia.
  - rewrite bool_decide_eq_false_2 by (intros [? ?]; congruence).
    rewrite lookup_insert_eq.
    destruct (decide (ComponentData.category c = k)) as [<-|Hne].
    + rewrite lookup_insert_eq, Hkey, !stat_or_zero_Some.
      rewrite bool_decide_eq_true_2 by done.
      destruct (ComponentData.is_free c); cbn; lia.
    + rewrite !lookup_insert_ne by done.
      rewrite bool_decide_eq_false_2 by done. cbn. lia.
Qed.

Lemma countWhere_cons {A} (f : A → bool) (x : A) (l : list A) :
  countWhere f (x :: l) = bump (f x) + countWhere f l.
Proof. unfold countWhere. cbn. by destruct (f x). Qed.

Lemma count_components_lookup (l : list ComponentData.t)
    (m : gmap string Stat.t) (k : string) :
  stat_or_zero Stat.count (foldl count_component m l !! k)
  = stat_or_zero Stat.count (m !! k) + countWhere (inCategory k) l
  ∧ stat_or_zero Stat.freeCount (foldl count_component m l !! k)
    = stat_or_zero Stat.freeCount (m !! k) + countWhere (freeInCategory k) l.
Proof.
  revert m. induction l as [|c l IH]; intros m.
  - unfold countWhere. cbn. lia.
  - cbn [foldl]. destruct (IH (count_component m c)) as [-> ->].
    destruct (count_component_lookup m c k) as [-> ->].
    rewrite !countWhere_cons. lia.
Qed.

Lemma categoryStat_counted (l : list ComponentData.t) (cat : Category.t) :
  categoryStat (foldl count_component ∅ l) cat = countedCategory l cat.
Proof.
  unfold categoryStat, countedCategory.
  destruct (count_components_lookup l ∅ (Category.slug cat)) as [-> ->].
  by rewrite lookup_empty.
Qed.

(** C8: [listCategories] emits one entry per published category, in
    catalog order; its total is the number of published components whose
    [category] is the category's slug and its free count the number of
    those that are free, zero included; an unpublished category has no
    entry. *)
Theorem listCategories_counts (srv : WebPixelsServer) :
  let components := ComponentCatalog.components (catalog srv) in
  let categories := ComponentCatalog.categories (catalog srv) in
  handleListCategories srv Args.empty
  = {| content := CategoriesResult (listCategories srv); isError := false |}
  ∧ listCategories srv
    = map (countedCategory components)
        (List.filter Category.is_published categories)
  ∧ Forall
      (λ st, ∃ cat, cat ∈ categories ∧ Category.is_published cat = true
                    ∧ st = countedCategory components cat)
      (listCategories srv)
  ∧ Forall (λ cat, countedCategory components cat ∈ listCategories srv)
      (List.filter Category.is_published categories).
Proof.
  intros components categories.
  assert (Heq : listCategories srv
    = map (countedCategory components)
        (List.filter Category.is_published categories)).
  { unfold listCategories. apply map_ext. intros cat.
    apply categoryStat_counted. }
  split_and!; [done|done| |].
  - rewrite Heq. apply Forall_forall. intros st Hst.
    apply list_elem_of_fmap in Hst as (cat & -> & Hcat).
    apply filter_elem_of in Hcat as [Hin Hpub]. eauto.
  - apply Forall_forall. intros cat Hin. rewrite Heq.
    apply list_elem_of_fmap. by exists cat.
Qed.

(** In the sample catalog the published category without components is
    listed with zero counts and the unpublished one is not listed. *)
Example listCategories_sample :
  map (λ st, (CategoryStat.slug st, CategoryStat.componentCount st,
              CategoryStat.freeCount st))
    (listCategories sampleServer)
  = [("sections", 2, 1); ("layouts", 0, 0)].
Proof. vm_compute. reflexivity. Qed.

(** ** Dependency resolver *)

Lemma resolveSlugs_omap srv (slugs : list string) :
  resolveSlugs srv slugs = omap (λ slug, componentsBySlug srv !! slug) slugs.
Proof.
  unfold resolveSlugs, defined.
  induction slugs as [|s slugs IH]; [done|]. cbn.
  destruct (componentsBySlug srv !! s); by rewrite IH.
Qed.

(** Resolution walks the list once: a slug found in the index
    contributes its component at that place, a slug not found
    contributes nothing. *)
Lemma resolveSlugs_cons srv (s : string) (slugs : list string) :
  resolveSlugs srv (s :: slugs)
  = match componentsBySlug srv !! s with
    | Some d => d :: resolveSlugs srv slugs
    | None => resolveSlugs srv slugs
    end.
Proof. rewrite !resolveSlugs_omap. cbn. by destruct (_ !! s). Qed.

Lemma resolveSlugs_elem_of srv (slugs : list string) (d : ComponentData.t) :
  d ∈ resolveSlugs srv slugs
  ↔ ∃ s, s ∈ slugs ∧ componentsBySlug srv !! s = Some d.
Proof. rewrite resolveSlugs_omap. apply list_elem_of_omap. Qed.

(** On a freshly built server a resolved entry is a component of the
    catalog carrying the slug it was found under. *)
Lemma resolveSlugs_catalog cat (slugs : list string) :
  Forall (λ d, d ∈ ComponentCatalog.components cat
               ∧ ComponentData.slug d ∈ slugs)
    (resolveSlugs (new_server cat) slugs).
Proof.
  apply Forall_forall. intros d Hd.
  apply resolveSlugs_elem_of in Hd as (s & Hs & Hd).
  rewrite new_server_bySlug in Hd.
  apply index_by_Some in Hd as [[Hin <-]|Hd]; [done|].
  by rewrite lookup_empty in Hd.
Qed.

(** C9: for a component that resolves, direction "dependencies" answers,
    without error, with the summaries of the entries of its
    [dependencies] list that the slug index resolves, in list order, the
    others being left out; direction "dependents" does the same with
    [used_by]. *)
Theorem dependencies_resolved (srv : WebPixelsServer) (args : Args.t)
    (c : ComponentData.t) :
  getComponent_opt srv (Args.id args) = Some c →
  let ref :=
    ComponentRef.mk (ComponentData.id c) (ComponentData.slug c)
      (ComponentData.name c) in
  (Args.direction args = Some "dependencies" →
   handleGetDependencies srv args
   = {| content :=
          DependenciesResult ref
            (Some (map formatComponentSummary
                     (resolveSlugs srv (ComponentData.dependencies c))))
            None;
        isError := false |})
  ∧ (Args.direction args = Some "dependents" →
     handleGetDependencies srv args
     = {| content :=
            DependenciesResult ref None
              (Some (map formatComponentSummary
                       (resolveSlugs srv (ComponentData.used_by c))));
          isError := false |})
  ∧ (∀ slugs,
       resolveSlugs srv slugs
       = omap (λ slug, componentsBySlug srv !! slug) slugs)
  ∧ (∀ slugs d,
       d ∈ resolveSlugs srv slugs
       ↔ ∃ s, s ∈ slugs ∧ componentsBySlug srv !! s = Some d).
Proof.
  intros Hc ref. split_and!.
  - intros Hdir. unfold handleGetDependencies. by rewrite Hc, Hdir.
  - intros Hdir. unfold handleGetDependencies. by rewrite Hc, Hdir.
  - apply resolveSlugs_omap.
  - apply resolveSlugs_elem_of.
Qed.

Lemma dependencies_resolved_witness :
  handleGetDependencies sampleServer (dependenciesOf "u2" "dependencies")
  = {| content :=
         DependenciesResult (ComponentRef.mk "u2" "section-pricing-1"
                               "section-pricing-1")
           (Some [formatComponentSummary hero]) None;
       isError := false |}
  ∧ handleGetDependencies sampleServer
      (dependenciesOf "section-hero-1" "dependents")
    = {| content :=
           DependenciesResult (ComponentRef.mk "u1" "section-hero-1"
                                 "section-hero-1")
             None (Some [formatComponentSummary pricing]);
         isError := false |}.
Proof.
  split.
  - refine (eq_trans (proj1 (dependencies_resolved sampleServer
      (dependenciesOf "u2" "dependencies") pricing _) eq_refl) _);
      vm_compute; reflexivity.
  - refine (eq_trans (proj1 (proj2 (dependencies_resolved sampleServer
      (dependenciesOf "section-hero-1" "dependents") hero _)) eq_refl) _);
      vm_compute; reflexivity.
Defined.

(** The sample catalog is well formed. *)
Lemma sampleCatalog_wf : WellFormed sampleCatalog.
Proof.
  split.
  - apply (bool_decide_unpack _). vm_compute. exact I.
  - apply (bool_decide_unpack _). vm_compute. exact I.
  - intros c d Hc Hd. cbn in Hc, Hd.
    repeat (apply elem_of_cons in Hc as [->|Hc]);
      try (by apply elem_of_nil in Hc);
      repeat (apply elem_of_cons in Hd as [->|Hd]);
      try (by apply elem_of_nil in Hd); done.
Defined.

Lemma getComponent_roundtrip_witness :
  (getComponent sampleServer "u2" = Some pricing
   ∧ getComponent sampleServer "section-pricing-1" = Some pricing)
  ∧ ∃ d, getComponent (new_server shadowCatalog) "u1" = Some d
         ∧ d ∈ ComponentCatalog.components shadowCatalog
         ∧ ComponentData.id d = "u1".
Proof.
  destruct getComponent_roundtrip as (Hround & _ & _ & Hid). split.
  - apply (Hround sampleCatalog pricing sampleCatalog_wf). cbn. right. left.
  - apply (Hid shadowCatalog "u1"). vm_compute. left.
Defined.

(** * Further properties *)

(** ** Catalog store: duplicate keys and misses *)

(** X1: the index build never fails on a repeated key and keeps the last
    component stored under it: the last component of the catalog with a
    given id is the one found under that id, by the id index and by
    [getComponent], whatever slugs the catalog has; likewise for the last
    component with a given slug in the slug index. *)
Theorem index_last_write_wins (cat : ComponentCatalog.t)
    (l1 l2 : list ComponentData.t) (c : ComponentData.t) :
  ComponentCatalog.components cat = (l1 ++ c :: l2)%list →
  (ComponentData.id c ∉ map ComponentData.id l2 →
   componentsById (new_server cat) !! ComponentData.id c = Some c
   ∧ getComponent (new_server cat) (ComponentData.id c) = Some c)
  ∧ (ComponentData.slug c ∉ map ComponentData.slug l2 →
     componentsBySlug (new_server cat) !! ComponentData.slug c = Some c).
Proof.
  intros Hcat. split.
  - intros Hlast.
    assert (Hid : componentsById (new_server cat) !! ComponentData.id c
                  = Some c).
    { rewrite new_server_byId, Hcat. by apply index_by_last. }
    split; [done|]. unfold getComponent. by rewrite Hid.
  - intros Hlast. rewrite new_server_bySlug, Hcat. by apply index_by_last.
Qed.

Lemma index_last_write_wins_witness :
  getComponent (new_server shadowCatalog) "u1" = Some heroCopy.
Proof.
  refine (proj2 (proj1 (index_last_write_wins shadowCatalog
    [hero] [aliased] heroCopy eq_refl) _)).
  vm_compute. intros H. apply elem_of_cons in H as [H|H]; [discriminate|].
  by apply elem_of_nil in H.
Defined.

(** X2: on a freshly built server [getComponent] answers only with
    components of the catalog whose id or slug is the reference, and it
    answers nothing exactly when the reference is neither an id nor a
    slug of the catalog. *)
Theorem getComponent_sound_complete (cat : ComponentCatalog.t)
    (x : string) :
  let components := ComponentCatalog.components cat in
  match getComponent (new_server cat) x with
  | Some c =>
      c ∈ components ∧ (ComponentData.id c = x ∨ ComponentData.slug c = x)
  | None =>
      (x ∉ map ComponentData.id components)
      ∧ (x ∉ map ComponentData.slug components)
  end
  ∧ (getComponent (new_server cat) x = None
     ↔ (x ∉ map ComponentData.id components)
       ∧ (x ∉ map ComponentData.slug components)).
Proof.
  intros components.
  assert (Hnone : getComponent (new_server cat) x = None
     ↔ (x ∉ map ComponentData.id components)
       ∧ (x ∉ map ComponentData.slug components)).
  { unfold getComponent. rewrite new_server_byId, new_server_bySlug.
    fold components. rewrite <- !index_by_None.
    destruct (index_by ComponentData.id ∅ components !! x);
      intuition congruence. }
  split; [|done].
  destruct (getComponent (new_server cat) x) as [c|] eqn:E.
  - by apply getComponent_Some.
  - by apply Hnone.
Qed.

(** X3: an id shadows a slug: when the reference is the id of some
    component, the answer carries that id, even if another component
    has the reference as its slug. *)
Theorem getComponent_id_shadows_slug (cat : ComponentCatalog.t)
    (x : string) :
  x ∈ map ComponentData.id (ComponentCatalog.components cat) →
  ∃ c, getComponent (new_server cat) x = Some c
       ∧ c ∈ ComponentCatalog.components cat
       ∧ ComponentData.id c = x.
Proof.
  intros Hid.
  destruct (index_by_is_Some ComponentData.id _ ∅ x Hid) as [c Hc].
  exists c. unfold getComponent. rewrite new_server_byId, Hc.
  apply index_by_Some in Hc as [[Hin Hkey]|Hc]; [done|].
  by rewrite lookup_empty in Hc.
Qed.

Lemma getComponent_id_shadows_slug_witness :
  ∃ c, getComponent (new_server shadowCatalog) "u1" = Some c
       ∧ c ∈ ComponentCatalog.components shadowCatalog
       ∧ ComponentData.id c = "u1".
Proof.
  apply (getComponent_id_shadows_slug shadowCatalog "u1").
  vm_compute. left.
Defined.

(** ** Query engine: how the filters compose *)

Lemma filter_filter_and {A} (f g : A → bool) (l : list A) :
  List.filter g (List.filter f l) = List.filter (λ x, f x && g x) l.
Proof.
  induction l as [|x l IH]; [done|]. cbn.
  destruct (f x); cbn; [destruct (g x)|]; by rewrite ?IH.
Qed.

Lemma searchComponents_unlimited_matches srv filters :
  searchComponents srv (unlimited filters)
  = List.filter (matchesFilters filters)
      (ComponentCatalog.components (catalog srv)).
Proof.
  destruct filters as [q ty cat sub free featured lim].
  unfold searchComponents, matchesFilters, unlimited.
  cbn [SearchFilters.query SearchFilters.type SearchFilters.category
       SearchFilters.is_free SearchFilters.is_featured SearchFilters.limit].
  destruct ty as [ty|], cat as [cat|], free as [free|],
    featured as [featured|], q as [q|];
    try destruct (truthy_string cat); try destruct (truthy_string q);
    rewrite ?filter_filter_and; apply List.filter_ext; intros c;
    by rewrite ?andb_true_r, ?andb_assoc.
Qed.

(** X4: the filters of [searchComponents] act as one conjunction over the
    catalog list: without a limit the result is the catalog filtered, in
    order, by publication, type, category-or-subcategory, [is_free],
    [is_featured] and the query together; a positive limit keeps the
    first that many of them and any other limit keeps them all. *)
Theorem searchComponents_matches (srv : WebPixelsServer)
    (filters : SearchFilters.t) :
  let matching :=
    List.filter (matchesFilters filters)
      (ComponentCatalog.components (catalog srv)) in
  searchComponents srv (unlimited filters) = matching
  ∧ searchComponents srv filters
    = match SearchFilters.limit filters with
      | Some n => if (0 <? n)%Z then take (Z.to_nat n) matching else matching
      | None => matching
      end
  ∧ (∀ c, c ∈ searchComponents srv (unlimited filters)
          ↔ c ∈ ComponentCatalog.components (catalog srv)
            ∧ matchesFilters filters c = true).
Proof.
  intros matching. subst matching. split_and!.
  - apply searchComponents_unlimited_matches.
  - rewrite searchComponents_limit, searchComponents_unlimited_matches.
    destruct (SearchFilters.limit filters) as [n|]; [|done].
    unfold truthy_num. destruct (Z.ltb_spec 0 n) as [Hpos|Hneg].
    + destruct (Z.eqb_spec n 0); [lia|done].
    + by rewrite andb_false_r.
  - intros c. rewrite searchComponents_unlimited_matches.
    apply filter_elem_of.
Qed.

Lemma toLowerCase_truthy (q1 q2 : string) :
  toLowerCase q1 = toLowerCase q2 → truthy_string q1 = truthy_string q2.
Proof. by destruct q1, q2. Qed.

(** X5: the text search does not see letter case in the query: two
    queries with the same lower-case form give the same result, whatever
    the other filters. *)
Theorem query_case_insensitive (srv : WebPixelsServer)
    (filters : SearchFilters.t) (q1 q2 : string) :
  toLowerCase q1 = toLowerCase q2 →
  searchComponents srv (setQuery (Some q1) filters)
  = searchComponents srv (setQuery (Some q2) filters).
Proof.
  intros Hlower. unfold searchComponents.
  cbn [setQuery SearchFilters.query SearchFilters.type
       SearchFilters.category SearchFilters.is_free
       SearchFilters.is_featured SearchFilters.limit].
  by rewrite (toLowerCase_truthy q1 q2 Hlower), Hlower.
Qed.

Lemma query_case_insensitive_witness :
  searchComponents sampleServer
    (setQuery (Some "Hero") (searchFilters_of_args Args.empty))
  = searchComponents sampleServer
      (setQuery (Some "hero") (searchFilters_of_args Args.empty)).
Proof.
  apply (query_case_insensitive sampleServer
           (searchFilters_of_args Args.empty) "Hero" "hero").
  vm_compute. reflexivity.
Defined.

Lemma search_positive srv args (n : Z) :
  (0 < n)%Z →
  search srv (setLimit (Some n) args)
  = take (Z.to_nat n)
      (searchComponents srv (unlimited (searchFilters_of_args args))).
Proof.
  intros Hn. unfold search.
  rewrite searchComponents_limit, limit_of_args, unlimited_setLimit.
  assert (Hn0 : truthy_num n = true)
    by (unfold truthy_num; apply negb_true_iff, Z.eqb_neq; lia).
  rewrite !Hn0. cbn [andb].
  by replace (0 <? n)%Z with true by (symmetry; apply Z.ltb_lt; lia).
Qed.

(** X6: at the search tool, raising a positive limit only appends
    results: the result for limit [n] is the first [n] entries of the
    result for any larger limit, and its length is the smaller of [n] and
    the number of matches. *)
Theorem search_limit_prefix (srv : WebPixelsServer) (args : Args.t)
    (n n' : Z) :
  (0 < n)%Z → (n ≤ n')%Z →
  search srv (setLimit (Some n) args)
  = take (Z.to_nat n) (search srv (setLimit (Some n') args))
  ∧ length (search srv (setLimit (Some n) args))
    = Nat.min (Z.to_nat n)
        (length (searchComponents srv
                   (unlimited (searchFilters_of_args args))))
  ∧ content (handleSearchComponents srv (setLimit (Some n) args))
    = SearchResult (length (search srv (setLimit (Some n) args)))
        (map formatComponentSummary (search srv (setLimit (Some n) args))).
Proof.
  intros Hn Hle. split_and!; [| |done].
  - rewrite !search_positive by lia. rewrite take_take. f_equal. lia.
  - rewrite search_positive by lia. apply length_take.
Qed.

Lemma search_limit_prefix_witness :
  search (new_server (crowdedCatalog 3)) (setLimit (Some 2%Z) Args.empty)
  = take 2
      (search (new_server (crowdedCatalog 3)) (setLimit (Some 3%Z) Args.empty)).
Proof.
  apply (search_limit_prefix (new_server (crowdedCatalog 3)) Args.empty 2 3);
    lia.
Defined.

(** ** Resources and the tools they mirror *)

Lemma search_negative srv args (n : Z) :
  (n < 0)%Z →
  search srv (setLimit (Some n) args)
  = searchComponents srv (unlimited (searchFilters_of_args args)).
Proof.
  intros Hn. unfold search.
  rewrite searchComponents_limit, limit_of_args, unlimited_setLimit.
  assert (Hn0 : truthy_num n = true)
    by (unfold truthy_num; apply negb_true_iff, Z.eqb_neq; lia).
  rewrite !Hn0. cbn [andb].
  by replace (0 <? n)%Z with false by (symmetry; apply Z.ltb_ge; lia).
Qed.

(** X7: the catalog resource lists the summaries of all published
    components, in catalog order, with their number as [totalCount]; it
    is the list the search tool returns without filters under a negative
    limit. *)
Theorem catalog_resource_all_published (srv : WebPixelsServer) (n : Z) :
  (n < 0)%Z →
  handleCatalogResource srv
  = {| uri := "component://catalog";
       contents :=
         CatalogResource (length (published srv))
           (map formatComponentSummary (published srv)) |}
  ∧ componentsOf (handleCatalogResource srv)
    = foundBy (handleSearchComponents srv (setLimit (Some n) Args.empty)).
Proof.
  intros Hn. split.
  - unfold handleCatalogResource. cbv zeta. by rewrite length_map.
  - unfold handleSearchComponents, foundBy. cbn [content].
    change (searchComponents srv
              (searchFilters_of_args (setLimit (Some n) Args.empty)))
      with (search srv (setLimit (Some n) Args.empty)).
    by rewrite search_negative.
Qed.

Lemma catalog_resource_all_published_witness :
  componentsOf (handleCatalogResource sampleServer)
  = foundBy (handleSearchComponents sampleServer
               (setLimit (Some (-1)%Z) Args.empty)).
Proof.
  apply (catalog_resource_all_published sampleServer (-1)). lia.
Defined.

Lemma truthy_string_nonempty (s : string) :
  s ≠ EmptyString → truthy_string s = true.
Proof. by destruct s. Qed.

(** X8: for a non-empty slug the category resource lists the published
    components whose category or subcategory is the slug, counted in
    [count]: the list the search tool returns for that category under a
    negative limit. *)
Theorem category_resource_matches_search (srv : WebPixelsServer)
    (slug : string) (n : Z) :
  slug ≠ EmptyString → (n < 0)%Z →
  let listed :=
    List.filter
      (λ c, ComponentData.is_published c
            && (bool_decide (ComponentData.category c = slug)
                || bool_decide (ComponentData.subcategory c = slug)))
      (ComponentCatalog.components (catalog srv)) in
  uri (handleCategoryResource srv (Some slug)) = "category://" +:+ slug
  ∧ contents (handleCategoryResource srv (Some slug))
    = CategoryResource (categoryOf (handleCategoryResource srv (Some slug)))
        (length listed) (map formatComponentSummary listed)
  ∧ componentsOf (handleCategoryResource srv (Some slug))
    = foundBy (handleSearchComponents srv (inCategoryArgs slug n)).
Proof.
  intros Hslug Hn listed.
  assert (Hfilter : List.filter
      (λ c, ComponentData.is_published c
            && (bool_decide (Some (ComponentData.category c) = Some slug)
                || bool_decide (Some (ComponentData.subcategory c)
                                = Some slug)))
      (ComponentCatalog.components (catalog srv)) = listed).
  { apply List.filter_ext. intros c. f_equal. f_equal.
    - apply bool_decide_ext. split; congruence.
    - apply bool_decide_ext. split; congruence. }
  split_and!.
  - done.
  - unfold handleCategoryResource, categoryOf. cbn [contents].
    by rewrite Hfilter, length_map.
  - unfold handleCategoryResource, componentsOf. cbn [contents].
    rewrite Hfilter.
    unfold handleSearchComponents, foundBy. cbn [content]. f_equal.
    change (searchComponents srv (searchFilters_of_args (inCategoryArgs slug n)))
      with (search srv (setLimit (Some n) (inCategoryArgs slug 0))).
    rewrite search_negative by done.
    rewrite searchComponents_unlimited_matches.
    apply List.filter_ext. intros c. unfold matchesFilters.
    cbn [searchFilters_of_args inCategoryArgs SearchFilters.query
         SearchFilters.type SearchFilters.category SearchFilters.is_free
         SearchFilters.is_featured Args.query Args.type Args.category
         Args.is_free].
    by rewrite (truthy_string_nonempty slug Hslug), !andb_true_r.
Qed.

Lemma category_resource_matches_search_witness :
  componentsOf (handleCategoryResource sampleServer (Some "hero"))
  = foundBy (handleSearchComponents sampleServer (inCategoryArgs "hero" (-1))).
Proof.
  apply (category_resource_matches_search sampleServer "hero" (-1));
    [discriminate | lia].
Defined.

Lemma index_component_categories (l : list ComponentData.t) srv :
  categoriesBySlug (foldl index_component srv l) = categoriesBySlug srv.
Proof.
  revert srv. induction l as [|c l IH]; intros srv; [done|].
  cbn. by rewrite IH.
Qed.

Lemma index_category_bySlug (l : list Category.t) srv :
  categoriesBySlug (foldl index_category srv l)
  = index_by Category.slug (categoriesBySlug srv) l.
Proof.
  revert srv. induction l as [|c l IH]; intros srv; [done|].
  cbn. by rewrite IH.
Qed.

Lemma new_server_categories cat :
  categoriesBySlug (new_server cat)
  = index_by Category.slug ∅ (ComponentCatalog.categories cat).
Proof.
  unfold new_server, indexData.
  rewrite index_category_bySlug, index_component_categories,
    index_component_catalog.
  done.
Qed.

(** X9: the category resource describes the last category of the catalog
    that carries the slug, published or not, and gives no description
    exactly when no category carries it. *)
Theorem category_resource_info (cat : ComponentCatalog.t)
    (l1 l2 : list Category.t) (c : Category.t) :
  ComponentCatalog.categories cat = (l1 ++ c :: l2)%list →
  Category.slug c ∉ map Category.slug l2 →
  categoryOf (handleCategoryResource (new_server cat) (Some (Category.slug c)))
  = Some (CategoryInfo.mk (Category.slug c) (Category.name c)
            (Category.description c))
  ∧ (∀ slug,
       categoryOf (handleCategoryResource (new_server cat) (Some slug)) = None
       ↔ slug ∉ map Category.slug (ComponentCatalog.categories cat)).
Proof.
  intros Hcats Hlast.
  unfold categoryOf, handleCategoryResource.
  cbn [contents get_opt]. rewrite new_server_categories. split.
  - rewrite Hcats. by rewrite index_by_last.
  - intros slug. rewrite <- index_by_None.
    by destruct (index_by Category.slug ∅ _ !! slug).
Qed.

Lemma category_resource_info_witness :
  Category.is_published formsCategory = false
  ∧ categoryOf (handleCategoryResource sampleServer (Some "forms"))
    = Some (CategoryInfo.mk "forms" "Forms" None).
Proof.
  split; [reflexivity|].
  refine (proj1 (category_resource_info sampleCatalog
    [sectionsCategory; layoutsCategory] [] formsCategory eq_refl _)).
  cbn. apply not_elem_of_nil.
Defined.

(** X10: the component resource and the [get_component] tool resolve a
    reference alike: when one returns the component the other returns
    the same detail, and the resource throws exactly when the tool
    answers with the not-found payload, whose error text is the thrown
    message. *)
Theorem component_resource_mirrors_tool (srv : WebPixelsServer)
    (ref : string) :
  match handleComponentResource srv (Some ref) with
  | Returned r =>
      uri r = "component://" +:+ ref
      ∧ ∃ c, getComponent srv ref = Some c
             ∧ contents r = ComponentResource (componentDetail c)
             ∧ handleGetComponent srv (withId ref)
               = {| content := ComponentResult (componentDetail c);
                    isError := false |}
  | Thrown message =>
      getComponent srv ref = None
      ∧ handleGetComponent srv (withId ref)
        = {| content := ErrorResult message None; isError := true |}
  end.
Proof.
  unfold handleComponentResource, handleGetComponent, notFound.
  cbn [withId Args.id getComponent_opt].
  destruct (getComponent srv ref) as [c|]; [|done].
  split; [done|]. by exists c.
Qed.

(** ** Assembly: the document shell *)

Lemma documentShell_split (body : string) :
  documentShell body = shellHeader +:+ body +:+ shellFooter.
Proof. vm_compute. reflexivity. Qed.

(** X11: unless [includeAssets] is exactly [false], a non-empty list of
    resolvable references is answered with the joined markup placed
    verbatim between a header and a footer that do not depend on it. *)
Theorem assemblePage_wrapped (srv : WebPixelsServer) (args : Args.t)
    (refs : list string) :
  Args.components args = Some refs →
  Args.includeAssets args ≠ Some false →
  refs ≠ [] →
  Forall (λ r, is_Some (getComponent srv r)) refs →
  handleAssemblePage srv args
  = {| content :=
         HtmlText
           (shellHeader
            +:+ join (LF +:+ LF) (map ComponentData.html (resolved srv refs))
            +:+ shellFooter);
       isError := false |}.
Proof.
  intros Hrefs Hassets Hne Hall.
  rewrite (handleAssemblePage_cases srv args refs Hrefs).
  destruct refs as [|r refs]; [done|].
  apply unresolved_none in Hall. rewrite Hall.
  rewrite bool_decide_eq_false_2 by done.
  cbv zeta. by rewrite documentShell_split.
Qed.

Lemma assemblePage_wrapped_witness :
  handleAssemblePage sampleServer (pageOf ["u1"] None)
  = {| content :=
         HtmlText (shellHeader +:+ "<div>Hero</div>" +:+ shellFooter);
       isError := false |}.
Proof.
  refine (eq_trans (assemblePage_wrapped sampleServer (pageOf ["u1"] None)
    ["u1"] eq_refl _ _ _) _).
  - discriminate.
  - discriminate.
  - constructor; [|constructor]. vm_compute. eauto.
  - vm_compute. reflexivity.
Defined.

(** ** Dependency resolver: directions and slugs *)

(** X12: for a component that resolves, a missing or empty [direction]
    behaves as "both" and both lists are returned; a direction that is
    none of the three names is not an error: the reply carries the
    identity of the component and neither list. *)
Theorem dependencies_direction (srv : WebPixelsServer) (args : Args.t)
    (c : ComponentData.t) :
  getComponent_opt srv (Args.id args) = Some c →
  let ref :=
    ComponentRef.mk (ComponentData.id c) (ComponentData.slug c)
      (ComponentData.name c) in
  let dependencies :=
    map formatComponentSummary
      (resolveSlugs srv (ComponentData.dependencies c)) in
  let dependents :=
    map formatComponentSummary (resolveSlugs srv (ComponentData.used_by c)) in
  (Args.direction args = None ∨ Args.direction args = Some EmptyString
   ∨ Args.direction args = Some "both" →
   handleGetDependencies srv args
   = {| content := DependenciesResult ref (Some dependencies) (Some dependents);
        isError := false |})
  ∧ (∀ d, Args.direction args = Some d →
          d ∉ [EmptyString; "dependencies"; "dependents"; "both"] →
          handleGetDependencies srv args
          = {| content := DependenciesResult ref None None;
               isError := false |}).
Proof.
  intros Hc ref dependencies dependents. split.
  - intros [Hdir|[Hdir|Hdir]]; unfold handleGetDependencies;
      by rewrite Hc, Hdir.
  - intros d Hdir Hother. rewrite !not_elem_of_cons in Hother.
    destruct Hother as (Hempty & Hdeps & Hdependents & Hboth & _).
    unfold handleGetDependencies. rewrite Hc, Hdir.
    rewrite (truthy_string_nonempty d Hempty).
    by rewrite !bool_decide_eq_false_2.
Qed.

Lemma dependencies_direction_witness :
  handleGetDependencies sampleServer (dependenciesOf "u2" "upstream")
  = {| content :=
         DependenciesResult
           (ComponentRef.mk "u2" "section-pricing-1" "section-pricing-1")
           None None;
       isError := false |}.
Proof.
  refine (proj2 (dependencies_direction sampleServer
    (dependenciesOf "u2" "upstream") pricing _) "upstream" eq_refl _).
  - vm_compute. reflexivity.
  - apply (bool_decide_unpack _). vm_compute. exact I.
Defined.

(** X13: on a freshly built server with unique slugs, resolving the
    slugs of a list of catalog components gives back that list; slugs
    that no component of the catalog carries resolve to nothing, ids
    included. *)
Theorem resolveSlugs_roundtrip (cat : ComponentCatalog.t)
    (l : list ComponentData.t) :
  NoDup (map ComponentData.slug (ComponentCatalog.components cat)) →
  Forall (λ d, d ∈ ComponentCatalog.components cat) l →
  resolveSlugs (new_server cat) (map ComponentData.slug l) = l
  ∧ (∀ slugs,
       Forall (λ s, s ∉ map ComponentData.slug
                          (ComponentCatalog.components cat)) slugs →
       resolveSlugs (new_server cat) slugs = []).
Proof.
  intros Hnodup Hl. split.
  - induction Hl as [|d l Hd _ IH]; [done|].
    cbn [map]. rewrite resolveSlugs_cons, new_server_bySlug.
    rewrite index_by_in by done. by rewrite IH.
  - intros slugs Hslugs. induction Hslugs as [|s slugs Hs _ IH]; [done|].
    rewrite resolveSlugs_cons, new_server_bySlug.
    apply index_by_None in Hs. by rewrite Hs.
Qed.

Lemma resolveSlugs_roundtrip_witness :
  resolveSlugs sampleServer
    (map ComponentData.slug [pricing; hero; pricing])
  = [pricing; hero; pricing]
  ∧ resolveSlugs sampleServer ["u1"; "section-gone-7"] = [].
Proof.
  destruct (resolveSlugs_roundtrip sampleCatalog [pricing; hero; pricing])
    as [Hround Hnone].
  - apply (bool_decide_unpack _). vm_compute. exact I.
  - repeat constructor.
  - split; [exact Hround|]. apply Hnone.
    repeat constructor; apply (bool_decide_unpack _); vm_compute; exact I.
Defined.

(** ** Aggregation: bounds on the counts *)

Lemma countWhere_le {A} (f g : A → bool) (l : list A) :
  (∀ x, f x = true → g x = true) → (countWhere f l ≤ countWhere g l)%nat.
Proof.
  intros Hfg. induction l as [|x l IH]; [done|].
  rewrite !countWhere_cons. specialize (Hfg x).
  destruct (f x), (g x); cbn; [lia | | lia | lia].
  specialize (Hfg eq_refl). discriminate.
Qed.

(** X14: in every entry of [listCategories] the free count is at most
    the total, and the total is at most the number of published
    components of the catalog. *)
Theorem listCategories_bounds (srv : WebPixelsServer) :
  Forall
    (λ st, (CategoryStat.freeCount st ≤ CategoryStat.componentCount st)%nat
           ∧ (CategoryStat.componentCount st ≤ length (published srv))%nat)
    (listCategories srv).
Proof.
  apply Forall_forall. intros st Hst. unfold listCategories in Hst.
  apply list_elem_of_fmap in Hst as (cat & -> & _).
  rewrite categoryStat_counted. cbn. split.
  - apply countWhere_le. unfold freeInCategory. intros c.
    by intros [? _]%andb_true_iff.
  - apply (countWhere_le _ ComponentData.is_published).
    unfold inCategory. intros c. by intros [? _]%andb_true_iff.
Qed.

(** ** Resource URIs: splitting and routing *)

Lemma string_app_cons (a : ascii) (s t : string) :
  String a s +:+ t = String a (s +:+ t).
Proof. reflexivity. Qed.

Lemma string_app_nil_r (s : string) : s +:+ EmptyString = s.
Proof.
  induction s as [|a s IH]; [done|]. by rewrite string_app_cons, IH.
Qed.

Lemma string_app_assoc (s t u : string) : (s +:+ t) +:+ u = s +:+ t +:+ u.
Proof.
  induction s as [|a s IH]; [done|]. by rewrite !string_app_cons, IH.
Qed.

Lemma string_length_app (s t : string) :
  String.length (s +:+ t) = (String.length s + String.length t)%nat.
Proof.
  induction s as [|a s IH]; [done|]. rewrite string_app_cons. cbn.
  by rewrite IH.
Qed.

Lemma prefix_app (sep s : string) :
  String.prefix sep s = true → ∃ t, s = sep +:+ t.
Proof.
  revert s. induction sep as [|a sep IH]; intros s Hpre; [by exists s|].
  destruct s as [|b s]; [done|]. cbn in Hpre.
  destruct (Ascii.ascii_dec a b) as [->|]; [|done].
  destruct (IH s Hpre) as [t ->]. exists t. by rewrite string_app_cons.
Qed.

Lemma split_go_skip (sep u t cur : string) :
  split_go sep (u +:+ t) (String.length u) cur = split_go sep t 0 cur.
Proof.
  induction u as [|a u IH]; [done|]. rewrite string_app_cons. cbn. apply IH.
Qed.

Lemma split_go_nonempty (sep s : string) (skip : nat) (cur : string) :
  split_go sep s skip cur ≠ [].
Proof.
  revert skip cur. induction s as [|a s IH]; intros skip cur; [done|].
  cbn [split_go]. destruct skip; [|apply IH].
  destruct (String.prefix sep (String a s)); [done|apply IH].
Qed.

Lemma join_cons (sep x : string) (l : list string) :
  l ≠ [] → join sep (x :: l) = x +:+ sep +:+ join sep l.
Proof. by destruct l. Qed.

Lemma split_go_join (sep : string) (n : nat) :
  sep ≠ EmptyString →
  ∀ s cur, (String.length s ≤ n)%nat →
           join sep (split_go sep s 0 cur) = cur +:+ s.
Proof.
  intros Hsep. induction n as [|n IH]; intros s cur Hlen.
  - destruct s; [|cbn in Hlen; lia]. cbn. by rewrite string_app_nil_r.
  - destruct s as [|a s]; [cbn; by rewrite string_app_nil_r|].
    cbn [split_go].
    destruct (String.prefix sep (String a s)) eqn:Hpre.
    + destruct (prefix_app _ _ Hpre) as [t Ht].
      destruct sep as [|b sep]; [done|].
      rewrite string_app_cons in Ht. injection Ht as -> ->.
      cbn [String.length].
      replace (S (String.length sep) - 1)%nat with (String.length sep)
        by lia.
      rewrite split_go_skip.
      rewrite join_cons by apply split_go_nonempty.
      rewrite IH; [by rewrite string_app_cons|].
      cbn in Hlen. rewrite string_length_app in Hlen. lia.
    + rewrite IH by (cbn in Hlen; lia).
      by rewrite string_app_assoc.
Qed.

(** X15: splitting a string at a non-empty separator loses nothing:
    joining the pieces with the separator gives the string back, and
    there is always at least one piece. *)
Theorem split_join_roundtrip (sep s : string) :
  sep ≠ EmptyString →
  join sep (split_string sep s) = s ∧ split_string sep s ≠ [].
Proof.
  intros Hsep. split.
  - unfold split_string. by rewrite (split_go_join sep (String.length s)).
  - apply split_go_nonempty.
Qed.

Lemma split_join_roundtrip_witness :
  join "://" (split_string "://" "component://a://b") = "component://a://b".
Proof.
  apply (split_join_roundtrip "://" "component://a://b"). discriminate.
Defined.

Lemma split_go_no_sep (sep s cur : string) :
  includes s sep = false → split_go sep s 0 cur = [cur +:+ s].
Proof.
  revert cur. induction s as [|a s IH]; intros cur Hinc.
  - cbn. by rewrite string_app_nil_r.
  - cbn [includes] in Hinc. apply orb_false_iff in Hinc as [Hpre Hinc].
    cbn [split_go]. rewrite Hpre, IH by done.
    by rewrite string_app_assoc.
Qed.

Lemma prefix_refl_app (sep t : string) : String.prefix sep (sep +:+ t) = true.
Proof.
  induction sep as [|a sep IH]; [by destruct t|].
  rewrite string_app_cons. cbn.
  by destruct (Ascii.ascii_dec a a).
Qed.

Lemma split_go_miss (sep s cur : string) (a : ascii) :
  String.prefix sep (String a s) = false →
  split_go sep (String a s) 0 cur
  = split_go sep s 0 (cur +:+ String a EmptyString).
Proof. intros Hmiss. cbn [split_go]. by rewrite Hmiss. Qed.

Lemma split_go_hit (sep t cur : string) :
  sep ≠ EmptyString →
  split_go sep (sep +:+ t) 0 cur = cur :: split_go sep t 0 EmptyString.
Proof.
  intros Hsep. destruct sep as [|a sep]; [done|].
  pose proof (prefix_refl_app (String a sep) t) as Hpre.
  rewrite string_app_cons in *. cbn [split_go]. rewrite Hpre.
  cbn [String.length].
  replace (S (String.length sep) - 1)%nat with (String.length sep) by lia.
  by rewrite split_go_skip.
Qed.

Lemma split_category (path : string) :
  split_string "://" ("category://" +:+ path)
  = "category" :: split_string "://" path.
Proof.
  unfold split_string. rewrite !string_app_cons.
  repeat (rewrite split_go_miss by reflexivity).
  change (String ":" (String "/" (String "/" (EmptyString +:+ path))))
    with ("://" +:+ path).
  by rewrite split_go_hit.
Qed.

Lemma split_component (path : string) :
  split_string "://" ("component://" +:+ path)
  = "component" :: split_string "://" path.
Proof.
  unfold split_string. rewrite !string_app_cons.
  repeat (rewrite split_go_miss by reflexivity).
  change (String ":" (String "/" (String "/" (EmptyString +:+ path))))
    with ("://" +:+ path).
  by rewrite split_go_hit.
Qed.

Lemma readResource_category srv (path : string) :
  readResource srv ("category://" +:+ path)
  = Returned (handleCategoryResource srv (split_string "://" path !! 0)).
Proof. unfold readResource. rewrite split_category. reflexivity. Qed.

(** X16: a URI is routed by its scheme and the text behind it: for a
    path that does not contain the separator, [category://path] is
    answered by the category handler for that path and never throws,
    [component://path] by the component handler for that path unless the
    path is [catalog], and [component://catalog] always by the catalog
    handler. *)
Theorem readResource_routing (srv : WebPixelsServer) (path : string) :
  includes path "://" = false →
  readResource srv ("category://" +:+ path)
  = Returned (handleCategoryResource srv (Some path))
  ∧ (path ≠ "catalog" →
     readResource srv ("component://" +:+ path)
     = handleComponentResource srv (Some path))
  ∧ readResource srv "component://catalog"
    = Returned (handleCatalogResource srv).
Proof.
  intros Hpath.
  assert (Hsplit : split_string "://" path = [path])
    by apply (split_go_no_sep "://" path EmptyString Hpath).
  split_and!.
  - by rewrite readResource_category, Hsplit.
  - intros Hcatalog. unfold readResource.
    rewrite split_component, Hsplit. cbn [lookup list_lookup].
    rewrite (bool_decide_eq_false_2 (Some path = Some "catalog"))
      by congruence.
    reflexivity.
  - reflexivity.
Qed.

Lemma readResource_routing_witness :
  readResource sampleServer "category://hero"
  = Returned (handleCategoryResource sampleServer (Some "hero")).
Proof.
  apply (readResource_routing sampleServer "hero"). vm_compute. reflexivity.
Defined.

(** ** The resource list *)

Lemma push_category_resource_foldl (cats : list Category.t)
    (acc : list ResourceInfo.t) :
  foldl push_category_resource acc cats
  = (acc ++ map categoryResourceInfo
              (List.filter Category.is_published cats))%list.
Proof.
  revert acc. induction cats as [|cat cats IH]; intros acc; cbn.
  - by rewrite app_nil_r.
  - rewrite IH. unfold push_category_resource.
    destruct (Category.is_published cat); [|done].
    by rewrite <- app_assoc.
Qed.

(** X17: the resource list is the catalog resource followed by one
    category resource per published category, in catalog order: the
    categories of [listCategories], slug for slug; and every URI it
    advertises can be read without a throw. *)
Theorem listResources_readable (srv : WebPixelsServer) :
  listResources srv
  = catalogResourceInfo
    :: map categoryResourceInfo
         (List.filter Category.is_published
            (ComponentCatalog.categories (catalog srv)))
  ∧ map ResourceInfo.uri (listResources srv)
    = "component://catalog"
      :: map (λ st, "category://" +:+ CategoryStat.slug st)
           (listCategories srv)
  ∧ Forall (λ info, ∃ r, readResource srv (ResourceInfo.uri info) = Returned r)
      (listResources srv).
Proof.
  assert (Heq : listResources srv
    = catalogResourceInfo
      :: map categoryResourceInfo
           (List.filter Category.is_published
              (ComponentCatalog.categories (catalog srv)))).
  { unfold listResources. by rewrite push_category_resource_foldl. }
  split_and!; [done| |].
  - rewrite Heq. unfold listCategories. cbn [map]. f_equal.
    rewrite !map_map. reflexivity.
  - rewrite Heq. constructor.
    + by exists (handleCatalogResource srv).
    + apply Forall_forall. intros info Hinfo.
      apply list_elem_of_fmap in Hinfo as (cat & -> & _).
      cbn [categoryResourceInfo ResourceInfo.uri].
      rewrite readResource_category. eauto.
Qed.
